(** * The tic-tac-toe promo client: session identity, move transport,
      reward link and game controller of [src/App.tsx]

    The React component [App] keeps six pieces of state ([sessionId],
    [board], [status], [busy], [error], [tgLink]) and changes them from
    three handlers: [resetGame], [onCellClick] and the modal's [onClose].
    [onCellClick] is asynchronous: it runs up to the [await] of
    [postMove], is suspended while the request is in flight, and is
    resumed with the outcome of [fetch].

    The embedding is shallow.  Every handler is a function on the
    snapshot; the suspended part of [onCellClick] is kept in a list of
    requests in flight and resumed by an explicit event that carries
    what the network answered.  A handler runs on the state committed
    last, and the state updates of one run of a handler are committed
    together, as React does for event handlers and for the
    continuation of an [await].  Strings are byte strings (the UTF-8
    form of a well-formed JavaScript string), the browser's
    [localStorage] is a finite map from keys to strings, and the value
    of [crypto.randomUUID()] is an input of the function that draws
    it.  Responses and error bodies have the shapes of their
    TypeScript types and of the wire contract. *)

From Stdlib Require Import String Ascii NArith DecimalString Lia.
From stdpp Require Import base strings gmap list.

Open Scope string_scope.

(** ** Data model *)

(** [type Cell = 0 | 1 | 2]: 0 empty, 1 player X, 2 bot O. *)
Inductive Cell : Type :=
| Empty
| Player
| Opponent.

(** [type GameStatus = "in_progress" | "win" | "lose" | "draw"]. *)
Inductive GameStatus : Type :=
| InProgress
| Win
| Lose
| Draw.

#[global] Instance Cell_eq_dec : EqDecision Cell.
Proof. solve_decision. Defined.

#[global] Instance GameStatus_eq_dec : EqDecision GameStatus.
Proof. solve_decision. Defined.

(** [type MoveResponse]. *)
Record MoveResponse : Type := mkMoveResponse {
  success : bool;
  res_status : GameStatus;
  res_board : list Cell;
  promoCode : option string
}.

(** The JSON body [{ sessionId, board, cellIndex }] that [postMove] sends. *)
Record MoveRequest : Type := mkMoveRequest {
  req_sessionId : string;
  req_board : list Cell;
  req_cellIndex : nat
}.

(** The state of [App]: one field per [useState]. *)
Record Snapshot : Type := mkSnapshot {
  sessionId : string;
  board : list Cell;
  status : GameStatus;
  busy : bool;
  error : option string;
  tgLink : option string
}.

(** The [useState] setters. *)
Definition setSessionId (v : string) (s : Snapshot) : Snapshot :=
  mkSnapshot v (board s) (status s) (busy s) (error s) (tgLink s).

Definition setBoard (v : list Cell) (s : Snapshot) : Snapshot :=
  mkSnapshot (sessionId s) v (status s) (busy s) (error s) (tgLink s).

Definition setStatus (v : GameStatus) (s : Snapshot) : Snapshot :=
  mkSnapshot (sessionId s) (board s) v (busy s) (error s) (tgLink s).

Definition setBusy (v : bool) (s : Snapshot) : Snapshot :=
  mkSnapshot (sessionId s) (board s) (status s) v (error s) (tgLink s).

Definition setError (v : option string) (s : Snapshot) : Snapshot :=
  mkSnapshot (sessionId s) (board s) (status s) (busy s) v (tgLink s).

Definition setTgLink (v : option string) (s : Snapshot) : Snapshot :=
  mkSnapshot (sessionId s) (board s) (status s) (busy s) (error s) v.

(** ** SessionIdentity: [getOrCreateSessionId] *)

Module Storage.

(** [localStorage]: string keys, string values. *)
Abbreviation t := (gmap string string).

(** [localStorage.getItem(key)]: the value or [null]. *)
Definition getItem (st : t) (key : string) : option string := st !! key.

(** [localStorage.setItem(key, value)]. *)
Definition setItem (st : t) (key value : string) : t := <[key := value]> st.

(** [localStorage.removeItem(key)]. *)
Definition removeItem (st : t) (key : string) : t := delete key st.

(** [localStorage.clear()]. *)
Definition clear (st : t) : t := ∅.

End Storage.

(** Truthiness of a [string | null]: [null] and the empty string are
    falsy. *)
Definition truthy (v : option string) : bool :=
  match v with
  | Some s => negb (String.eqb s "")
  | None => false
  end.

Definition session_key : string := "ttt_session_id".

(** [getOrCreateSessionId()].  [uuid] is the value [crypto.randomUUID()]
    gives if it is called; the result is the identifier and the
    store the call leaves behind. *)
Definition getOrCreateSessionId (localStorage : Storage.t) (uuid : string)
  : string * Storage.t :=
  let key := session_key in
  let existing := Storage.getItem localStorage key in
  let fresh :=
    let id := "s_" +:+ uuid in
    (id, Storage.setItem localStorage key id) in
  match existing with
  | Some e =>
      if truthy existing && (0 <? String.length e)%nat
      then (e, localStorage)
      else fresh
  | None => fresh
  end.

(** ** RewardLinkBuilder: [buildTelegramLink] *)

Module Uri.

(** The characters [encodeURIComponent] leaves alone: ASCII letters,
    digits and [- _ . ! ~ * ' ( )]. *)
Definition unreserved (c : ascii) : bool :=
  let n := N_of_ascii c in
  ((65 <=? n) && (n <=? 90)
   || (97 <=? n) && (n <=? 122)
   || (48 <=? n) && (n <=? 57)
   || existsb (Ascii.eqb c) (list_ascii_of_string "-_.!~*'()"))%N.

(** Upper-case hexadecimal digit of a value below 16. *)
Definition hexDigit (n : N) : ascii :=
  (if n <? 10 then ascii_of_N (48 + n) else ascii_of_N (55 + n))%N.

(** Value of a hexadecimal digit, either case. *)
Definition hexValue (c : ascii) : option N :=
  let n := N_of_ascii c in
  (if (48 <=? n) && (n <=? 57) then Some (n - 48)
   else if (65 <=? n) && (n <=? 70) then Some (n - 55)
   else if (97 <=? n) && (n <=? 102) then Some (n - 87)
   else None)%N.

(** [%XY] for one byte. *)
Definition escape (c : ascii) : string :=
  let n := N_of_ascii c in
  String "%" (String (hexDigit (n / 16)) (String (hexDigit (n mod 16)) "")).

(** [encodeURIComponent(s)] on the UTF-8 bytes of [s]: every byte
    outside the unreserved set is escaped. *)
Fixpoint encodeURIComponent (s : string) : string :=
  match s with
  | EmptyString => EmptyString
  | String c rest =>
      if unreserved c
      then String c (encodeURIComponent rest)
      else escape c +:+ encodeURIComponent rest
  end.

(** [decodeURIComponent(s)] on bytes: [None] is the [URIError] of a
    [%] that is not followed by two hexadecimal digits. *)
Fixpoint decodeURIComponent (s : string) : option string :=
  match s with
  | EmptyString => Some EmptyString
  | String c rest =>
      if Ascii.eqb c "%" then
        match rest with
        | String h (String l rest') =>
            match hexValue h, hexValue l with
            | Some a, Some b =>
                option_map (String (ascii_of_N (16 * a + b)))
                           (decodeURIComponent rest')
            | _, _ => None
            end
        | _ => None
        end
      else option_map (String c) (decodeURIComponent rest)
  end.

(** The part of [url] after [prefix], if [url] starts with it. *)
Fixpoint stripPrefix (prefix url : string) : option string :=
  match prefix, url with
  | EmptyString, _ => Some url
  | String p prefix', String u url' =>
      if Ascii.eqb p u then stripPrefix prefix' url' else None
  | String _ _, EmptyString => None
  end.

End Uri.

(** [const BOT_USERNAME = "ttt432_bot"]. *)
Definition BOT_USERNAME : string := "ttt432_bot".

(** [buildTelegramLink(sid)]. *)
Definition buildTelegramLink (sid : string) : string :=
  "https://t.me/" +:+ BOT_USERNAME +:+ "?start=" +:+ Uri.encodeURIComponent sid.

(** The fixed part of the deep link, up to and with [?start=]. *)
Definition linkTemplate : string := "https://t.me/ttt432_bot?start=".

(** ** MoveTransport: [postMove] *)

(** A value a [catch] clause receives; [e?.message] is its message, if
    it has one. *)
Record Thrown : Type := mkThrown {
  thrown_message : option string
}.

(** [new Error(msg)]. *)
Definition newError (msg : string) : Thrown := mkThrown (Some msg).

(** The [message] field of a non-success body, typed by the wire
    contract [{ message: string | string[] }]. *)
Inductive MessageField : Type :=
| MessageString (s : string)
| MessageArray (l : list string).

(** A parsed non-success body; [body_message] is [None] when the body
    has no [message]. *)
Record ErrorBody : Type := mkErrorBody {
  body_message : option MessageField
}.

(** What the network does with one request.
    - [FetchRejected e]: [fetch] itself rejects with [e];
    - [FetchOk json]: a response with [res.ok]; [res.json()] rejects
      with a value or resolves to a [MoveResponse];
    - [FetchNotOk status json]: a response without [res.ok];
      [res.json()] rejects ([None]) or resolves to an error body. *)
Inductive FetchResult : Type :=
| FetchRejected (e : Thrown)
| FetchOk (json : Thrown + MoveResponse)
| FetchNotOk (status : N) (json : option ErrorBody).

(** Truthiness of [body?.message]: a missing message and the empty
    string are falsy, every array is truthy. *)
Definition messageTruthy (m : option MessageField) : bool :=
  match m with
  | Some (MessageString s) => negb (String.eqb s "")
  | Some (MessageArray _) => true
  | None => false
  end.

(** The template literal [`HTTP ${res.status}`]. *)
Definition httpStatusText (status : N) : string :=
  "HTTP " +:+ NilEmpty.string_of_uint (N.to_uint status).

(** The [if (!res.ok)] block of [postMove]: the error it throws. *)
Definition postMoveError (status : N) (json : option ErrorBody) : Thrown :=
  let body : option ErrorBody := json in
  let message := body ≫= body_message in
  let msg :=
    if messageTruthy message
    then default (MessageString "") message
    else MessageString (httpStatusText status) in
  newError (match msg with
            | MessageArray l => String.concat ", " l
            | MessageString s => s
            end).

(** [postMove(sessionId, board, cellIndex)]: the request it sends
    and, for every outcome of [fetch], what the promise settles to
    ([inl]: rejected with the value, [inr]: resolved). *)
Definition postMove (sessionId : string) (board : list Cell) (cellIndex : nat)
  : MoveRequest * (FetchResult → Thrown + MoveResponse) :=
  (mkMoveRequest sessionId board cellIndex,
   λ net,
     match net with
     | FetchRejected e => inl e
     | FetchNotOk status json => inl (postMoveError status json)
     | FetchOk json => json
     end).

(** ** GameController: the handlers of [App] *)

(** [EmptyBoard()]: [Array.from({ length: 9 }, () => 0)]. *)
Definition EmptyBoard : list Cell := (λ _, Empty) <$> seq 0 9.

(** The initial values of the [useState] calls. *)
Definition App_initial : Snapshot :=
  mkSnapshot "" EmptyBoard InProgress false None None.

(** The mount effect: [setSessionId(getOrCreateSessionId())]. *)
Definition App_mount (localStorage : Storage.t) (uuid : string) (s : Snapshot)
  : Snapshot * Storage.t :=
  let r := getOrCreateSessionId localStorage uuid in
  (setSessionId (fst r) s, snd r).

(** [canPlay]: [status === "in_progress" && !busy]. *)
Definition canPlay (s : Snapshot) : bool :=
  bool_decide (status s = InProgress) && negb (busy s).

(** [resetGame()]. *)
Definition resetGame (s : Snapshot) : Snapshot :=
  setTgLink None (setError None (setStatus InProgress (setBoard EmptyBoard s))).

(** [onClose] of the link modal: [setTgLink(null)]. *)
Definition closeModal (s : Snapshot) : Snapshot := setTgLink None s.

(** [board[i] !== 0]; an index outside the board reads [undefined]. *)
Definition cellNotEmpty (b : list Cell) (i : nat) : bool :=
  negb (bool_decide (b !! i = Some Empty)).

(** [catch (e) { setError(e?.message ?? "Ошибка запроса") }]. *)
Definition defaultError : string := "Ошибка запроса".

(** [onCellClick(i)] up to its [await]: the new snapshot and the
    requests sent. *)
Definition onCellClick (s : Snapshot) (i : nat) : Snapshot * list MoveRequest :=
  if negb (canPlay s) then (s, [])
  else if cellNotEmpty (board s) i then (s, [])
  else
    let s' := setBusy true (setError None s) in
    (s', [fst (postMove (sessionId s) (board s) i)]).

(** [onCellClick] from its [await] on, for the call that sent [req]:
    [sessionId] is the one of the closure, which is the one sent. *)
Definition onCellClick_resume (req : MoveRequest) (net : FetchResult)
    (s : Snapshot) : Snapshot :=
  let settled :=
    snd (postMove (req_sessionId req) (req_board req) (req_cellIndex req)) net in
  let s :=
    match settled with
    | inr res =>
        let s := setBoard (res_board res) s in
        let s := setStatus (res_status res) s in
        if bool_decide (res_status res = Win)
        then setTgLink (Some (buildTelegramLink (req_sessionId req))) s
        else s
    | inl e =>
        setError (Some (default defaultError (thrown_message e))) s
    end in
  setBusy false s.

(** The component with its suspended [onCellClick] calls. *)
Record Config : Type := mkConfig {
  snap : Snapshot;
  inflight : list MoveRequest
}.

(** What can happen to a mounted component. *)
Inductive Event : Type :=
| Click (i : nat)
| Reset
| CloseModal
| Settle (k : nat) (net : FetchResult).

(** One event.  [Settle k net] resumes the [k]-th suspended call with
    the outcome [net]; it does nothing when there is no such call. *)
Definition step (c : Config) (ev : Event) : Config :=
  match ev with
  | Click i =>
      let r := onCellClick (snap c) i in
      mkConfig (fst r) (inflight c ++ snd r)
  | Reset => mkConfig (resetGame (snap c)) (inflight c)
  | CloseModal => mkConfig (closeModal (snap c)) (inflight c)
  | Settle k net =>
      match inflight c !! k with
      | Some req =>
          mkConfig (onCellClick_resume req net (snap c)) (delete k (inflight c))
      | None => c
      end
  end.

(** A sequence of events, oldest first. *)
Definition run (c : Config) (trace : list Event) : Config :=
  fold_left step trace c.

(** The component once the mount effect has stored [sid]. *)
Definition start (sid : string) : Config :=
  mkConfig (setSessionId sid App_initial) [].

(** ** Properties stated as definitions *)

(** The invariant of a component mounted with [sid]:
    - the session identifier never changes;
    - either nothing is in flight and [busy] is off, or exactly one
      request is, [busy] is on and the request carries [sid];
    - a reward link is only there when the game is won and nothing is
      in flight;
    - no error message is shown while [busy] is on. *)
Definition Inv (sid : string) (c : Config) : Prop :=
  sessionId (snap c) = sid
  ∧ ((inflight c = [] ∧ busy (snap c) = false)
     ∨ (∃ req, inflight c = [req] ∧ busy (snap c) = true
               ∧ req_sessionId req = sid))
  ∧ (tgLink (snap c) = None ∨ (status (snap c) = Win ∧ inflight c = []))
  ∧ (busy (snap c) = true → error (snap c) = None).

(** The guard of a move on cell [i], in the words of the specification:
    the game is in progress, no response is awaited, the cell is empty. *)
Definition moveGuard (s : Snapshot) (i : nat) : Prop :=
  status s = InProgress ∧ busy s = false ∧ board s !! i = Some Empty.

#[global] Instance moveGuard_dec (s : Snapshot) (i : nat) :
  Decision (moveGuard s i).
Proof. unfold moveGuard. apply _. Defined.

(** An event with no part in settling a request. *)
Definition notSettle (ev : Event) : Prop :=
  match ev with
  | Settle _ _ => False
  | _ => True
  end.

(** A click or a closing of the modal: neither a reset nor the
    outcome of a request. *)
Definition quiet (ev : Event) : Prop :=
  match ev with
  | Click _ | CloseModal => True
  | Reset | Settle _ _ => False
  end.

(** Every board a response of this event brings has nine cells. *)
Definition responseBoardOfNine (ev : Event) : Prop :=
  match ev with
  | Settle _ (FetchOk (inr res)) => length (res_board res) = 9
  | _ => True
  end.

(** The message of a non-success response in the words of the
    specification: the body's message string, or its list of message
    strings joined, or the status description when there is no body
    to read a message from. *)
Definition describedErrorMessage (status : N) (json : option ErrorBody) : string :=
  match json ≫= body_message with
  | Some (MessageString s) => s
  | Some (MessageArray l) => String.concat ", " l
  | None => httpStatusText status
  end.

(** A response to a request sent before a [Reset] is discarded: it
    leaves the board, the status and the reward link of the reset
    component as they are. *)
Definition staleResponseDiscarded (c : Config) (k : nat) (net : FetchResult)
  : Prop :=
  let c1 := step c Reset in
  let c2 := step c1 (Settle k net) in
  board (snap c2) = board (snap c1)
  ∧ status (snap c2) = status (snap c1)
  ∧ tgLink (snap c2) = tgLink (snap c1).

(** The identifier the store holds, if it holds one, was made by
    [getOrCreateSessionId] from one of the UUIDs [drawn] so far. *)
Definition identifierDrawnFrom (drawn : list string) (st : Storage.t) : Prop :=
  ∀ x : string,
    Storage.getItem st session_key = Some x → x ≠ "" →
    ∃ u0 : string, u0 ∈ drawn ∧ x = "s_" +:+ u0.

(** ** Requests sent during a run *)

(** The requests the clicks of [trace] send, oldest first, when the
    events are applied to [c] in turn. *)
Fixpoint requestsSent (c : Config) (trace : list Event) : list MoveRequest :=
  match trace with
  | [] => []
  | ev :: rest =>
      match ev with
      | Click i => snd (onCellClick (snap c) i)
      | _ => []
      end ++ requestsSent (step c ev) rest
  end.

(** The number of outcomes of requests among the events. *)
Fixpoint settles (trace : list Event) : nat :=
  match trace with
  | [] => 0
  | Settle _ _ :: rest => S (settles rest)
  | _ :: rest => settles rest
  end.

(** An event that is neither a reset nor a response. *)
Definition keepsGame (ev : Event) : Prop :=
  match ev with
  | Reset | Settle _ (FetchOk (inr _)) => False
  | _ => True
  end.

(** What else holds of a component mounted with [sid]: a reward link
    is the link of [sid], and nothing is in flight once the game is
    over. *)
Definition GameInv (sid : string) (c : Config) : Prop :=
  (∀ l, tgLink (snap c) = Some l → l = buildTelegramLink sid)
  ∧ (status (snap c) ≠ InProgress → inflight c = []).

(** A request of the component mounted with [sid] for an empty cell
    of the board it carries. *)
Definition wellFormedRequest (sid : string) (req : MoveRequest) : Prop :=
  req_sessionId req = sid
  ∧ req_board req !! req_cellIndex req = Some Empty.

(** ** Presentation helpers: [clsx], [prettyStatus], [CellMark] *)

(** An argument of [clsx]: [string | false | undefined | null]. *)
Inductive ClassArg : Type :=
| ClassName (s : string)
| ClassFalse
| ClassUndefined
| ClassNull.

(** [Boolean(x)] on an argument of [clsx]. *)
Definition classTruthy (x : ClassArg) : bool :=
  match x with
  | ClassName s => negb (String.eqb s "")
  | ClassFalse | ClassUndefined | ClassNull => false
  end.

(** The text [join] writes for an element. *)
Definition classText (x : ClassArg) : string :=
  match x with
  | ClassName s => s
  | ClassFalse => "false"
  | ClassUndefined | ClassNull => ""
  end.

(** [clsx(...xs)]: [xs.filter(Boolean).join(" ")]. *)
Definition clsx (xs : list ClassArg) : string :=
  String.concat " " (classText <$> List.filter classTruthy xs).

(** [cond && "name"] as an argument of [clsx]. *)
Definition classWhen (cond : bool) (name : string) : ClassArg :=
  if cond then ClassName name else ClassFalse.

(** [prettyStatus(status)]. *)
Definition prettyStatus (status : GameStatus) : string :=
  match status with
  | InProgress => "Ваш ход"
  | Win => "Вы выиграли ✨"
  | Lose => "Почти получилось"
  | Draw => "Ничья — ещё раз?"
  end.

Definition X_MARK : string := "✕".
Definition O_MARK : string := "○".

(** [CellMark({ value })]: the class and the text of the [span]. *)
Definition CellMark (value : Cell) : string * string :=
  if bool_decide (value = Player)
  then ("text-2xl sm:text-3xl font-semibold", X_MARK)
  else if bool_decide (value = Opponent)
  then ("text-2xl sm:text-3xl font-semibold", O_MARK)
  else ("text-2xl sm:text-3xl opacity-30", O_MARK).

(** ** What [App] renders from a snapshot *)

(** [{error && (...{error}...)}]: the error banner and its text. *)
Definition errorBanner (s : Snapshot) : option string :=
  if truthy (error s) then error s else None.

(** [{tgLink && <TelegramLinkModal link={tgLink} ... />}]: the modal
    and the link it is given. *)
Definition linkModal (s : Snapshot) : option string :=
  if truthy (tgLink s) then tgLink s else None.

(** [{(status === "lose" || status === "draw") && (...)}]: the panel
    with the second reset button, and its heading. *)
Definition retryPanel (s : Snapshot) : option string :=
  if bool_decide (status s = Lose) || bool_decide (status s = Draw)
  then Some (if bool_decide (status s = Lose)
             then "Хотите попробовать ещё раз?"
             else "Сыграем ещё раз?")
  else None.

(** The class of the icon in the reset button:
    [clsx("h-4 w-4", busy && "animate-spin")]. *)
Definition resetIconClass (s : Snapshot) : string :=
  clsx [ClassName "h-4 w-4"; classWhen (busy s) "animate-spin"].

(** One button of the board: the index its [onClick] passes to
    [onCellClick], [clickable], the class of the button and of the
    mark, and the mark. *)
Record CellButton : Type := mkCellButton {
  btn_index : nat;
  btn_clickable : bool;
  btn_class : string;
  btn_markClass : string;
  btn_mark : string * string
}.

(** [board.map((v, i) => ...)]. *)
Definition boardButtons (s : Snapshot) : list CellButton :=
  imap (λ i v,
          let clickable := canPlay s && bool_decide (v = Empty) in
          mkCellButton i clickable
            (clsx [ClassName "aspect-square rounded-3xl border shadow-sm flex items-center justify-center";
                   ClassName "bg-white/70 border-white/60";
                   classWhen clickable "hover:bg-white/85";
                   classWhen (negb clickable) "opacity-95"])
            (clsx [classWhen (bool_decide (v = Player)) "text-slate-900";
                   classWhen (bool_decide (v = Opponent)) "text-rose-500"])
            (CellMark v))
       (board s).

(** ** The link modal: [TelegramLinkModal] *)

(** The modal's [copied] state, the number of [setTimeout] callbacks
    not run yet, and what [copy] wrote to the clipboard last. *)
Record ModalState : Type := mkModalState {
  copied : bool;
  timeouts : nat;
  written : option string
}.

(** What can happen to an open modal: [writeText] of a [copy] call
    resolves or rejects, or the oldest pending timeout runs. *)
Inductive ModalEvent : Type :=
| CopyWritten
| CopyRefused
| TimeoutRuns.

(** [useState(false)]. *)
Definition modalInitial : ModalState := mkModalState false 0 None.

(** [copy()] and the callback of its [setTimeout], for the modal of
    [link].  A rejected [writeText] ends [copy] at its [await]. *)
Definition modalStep (link : string) (m : ModalState) (ev : ModalEvent)
  : ModalState :=
  match ev with
  | CopyWritten => mkModalState true (S (timeouts m)) (Some link)
  | CopyRefused => m
  | TimeoutRuns =>
      match timeouts m with
      | 0 => m
      | S n => mkModalState false n (written m)
      end
  end.

Definition modalRun (link : string) (m : ModalState) (trace : list ModalEvent)
  : ModalState :=
  fold_left (modalStep link) trace m.

(** ** Percent-encoding *)

Section UriFacts.

Import Uri.

Lemma unreserved_not_percent (c : ascii) :
  unreserved c = true → Ascii.eqb c "%" = false.
Proof.
  destruct c as [[] [] [] [] [] [] [] []]; vm_compute; congruence.
Qed.

Lemma decode_escape (c : ascii) (rest : string) :
  decodeURIComponent (escape c +:+ rest)
  = option_map (String c) (decodeURIComponent rest).
Proof.
  destruct c as [[] [] [] [] [] [] [] []]; reflexivity.
Qed.

Lemma decode_encode (s : string) :
  decodeURIComponent (encodeURIComponent s) = Some s.
Proof.
  induction s as [|c s IH]; [reflexivity|].
  cbn [encodeURIComponent].
  destruct (unreserved c) eqn:Hc.
  - cbn [decodeURIComponent].
    rewrite (unreserved_not_percent c Hc), IH. reflexivity.
  - rewrite decode_escape, IH. reflexivity.
Qed.

Lemma escape_chars (c : ascii) :
  Forall (λ x, unreserved x = true ∨ x = "%"%char)
         (list_ascii_of_string (escape c)).
Proof.
  destruct c as [[] [] [] [] [] [] [] []]; cbn;
    repeat (constructor; [auto|]); constructor.
Qed.

Lemma list_ascii_of_string_app (a b : string) :
  list_ascii_of_string (a +:+ b)
  = (list_ascii_of_string a ++ list_ascii_of_string b)%list.
Proof.
  induction a as [|c a IH]; [reflexivity|].
  change (String c a +:+ b) with (String c (a +:+ b)).
  cbn [list_ascii_of_string app]. by rewrite IH.
Qed.

Lemma encode_chars (s : string) :
  Forall (λ x, unreserved x = true ∨ x = "%"%char)
         (list_ascii_of_string (encodeURIComponent s)).
Proof.
  induction s as [|c s IH]; cbn [encodeURIComponent].
  - constructor.
  - destruct (unreserved c) eqn:Hc.
    + cbn [list_ascii_of_string]. constructor; auto.
    + rewrite list_ascii_of_string_app. apply Forall_app.
      split; [apply escape_chars|exact IH].
Qed.

Lemma stripPrefix_app (p s : string) : stripPrefix p (p +:+ s) = Some s.
Proof.
  induction p as [|c p IH]; [by destruct s|].
  change (String c p +:+ s) with (String c (p +:+ s)).
  cbn [stripPrefix]. by rewrite Ascii.eqb_refl.
Qed.

End UriFacts.

Lemma buildTelegramLink_shape (sid : string) :
  buildTelegramLink sid = linkTemplate +:+ Uri.encodeURIComponent sid.
Proof. reflexivity. Qed.

Lemma buildTelegramLink_decode (sid : string) :
  Uri.stripPrefix linkTemplate (buildTelegramLink sid)
    ≫= Uri.decodeURIComponent = Some sid.
Proof.
  rewrite buildTelegramLink_shape, stripPrefix_app.
  cbn [mbind option_bind]. apply decode_encode.
Qed.

(** Two identifiers with the same link are the same identifier. *)
Lemma buildTelegramLink_inj (sid1 sid2 : string) :
  buildTelegramLink sid1 = buildTelegramLink sid2 → sid1 = sid2.
Proof.
  intros Heq.
  pose proof (buildTelegramLink_decode sid1) as H1.
  rewrite Heq, buildTelegramLink_decode in H1. congruence.
Qed.

(** C6.  [buildTelegramLink] is a function of the session identifier
    alone; its value is the fixed deep link
    [https://t.me/ttt432_bot?start=] followed by the percent-encoded
    identifier, which is made of unreserved characters and [%] only;
    percent-decoding the start parameter of the link gives back the
    identifier. *)
Theorem buildTelegramLink_roundtrip (sid : string) :
  buildTelegramLink sid = linkTemplate +:+ Uri.encodeURIComponent sid
  ∧ Uri.stripPrefix linkTemplate (buildTelegramLink sid)
    = Some (Uri.encodeURIComponent sid)
  ∧ Forall (λ x, Uri.unreserved x = true ∨ x = "%"%char)
           (list_ascii_of_string (Uri.encodeURIComponent sid))
  ∧ Uri.stripPrefix linkTemplate (buildTelegramLink sid)
      ≫= Uri.decodeURIComponent = Some sid.
Proof.
  split_and!.
  - reflexivity.
  - rewrite buildTelegramLink_shape. apply stripPrefix_app.
  - apply encode_chars.
  - apply buildTelegramLink_decode.
Qed.

(** ** Session identity *)

Section SessionFacts.

Implicit Types (st : Storage.t) (x uuid : string).

Lemma truthy_nonempty x : truthy (Some x) = true ↔ x ≠ "".
Proof.
  cbn [truthy]. rewrite negb_true_iff.
  destruct (String.eqb_spec x ""); split; congruence.
Qed.

Lemma length_pos_nonempty x : (0 <? String.length x)%nat = true ↔ x ≠ "".
Proof. destruct x; cbn; split; congruence. Qed.

(** A stored non-empty value is handed back; nothing is written. *)
Lemma getOrCreate_stored st x uuid :
  Storage.getItem st session_key = Some x → x ≠ "" →
  getOrCreateSessionId st uuid = (x, st).
Proof.
  intros Hget Hne. unfold getOrCreateSessionId. rewrite Hget.
  rewrite (proj2 (truthy_nonempty x) Hne), (proj2 (length_pos_nonempty x) Hne).
  reflexivity.
Qed.

(** Without a stored value, or with the empty string stored, the
    identifier is made from the UUID and written under the key. *)
Lemma getOrCreate_fresh st uuid :
  Storage.getItem st session_key = None
  ∨ Storage.getItem st session_key = Some "" →
  getOrCreateSessionId st uuid
  = ("s_" +:+ uuid, Storage.setItem st session_key ("s_" +:+ uuid)).
Proof.
  intros [Hget|Hget]; unfold getOrCreateSessionId; by rewrite Hget.
Qed.

(** What a call returns is what the store holds afterwards. *)
Lemma getOrCreate_persisted st uuid :
  Storage.getItem (snd (getOrCreateSessionId st uuid)) session_key
  = Some (fst (getOrCreateSessionId st uuid)).
Proof.
  destruct (Storage.getItem st session_key) as [x|] eqn:Hget.
  - destruct (decide (x = "")) as [->|Hne].
    + rewrite getOrCreate_fresh by auto. apply lookup_insert_eq.
    + by rewrite (getOrCreate_stored st x uuid Hget Hne).
  - rewrite getOrCreate_fresh by auto. apply lookup_insert_eq.
Qed.

(** The identifier returned is never the empty string. *)
Lemma getOrCreate_nonempty st uuid :
  fst (getOrCreateSessionId st uuid) ≠ "".
Proof.
  destruct (Storage.getItem st session_key) as [x|] eqn:Hget.
  - destruct (decide (x = "")) as [->|Hne].
    + by rewrite getOrCreate_fresh by auto.
    + by rewrite (getOrCreate_stored st x uuid Hget Hne).
  - by rewrite getOrCreate_fresh by auto.
Qed.

(** A second call on the store the first one left returns the same
    identifier and writes nothing, whatever UUID it could draw. *)
Lemma getOrCreate_twice st uuid uuid' :
  getOrCreateSessionId (snd (getOrCreateSessionId st uuid)) uuid'
  = getOrCreateSessionId st uuid.
Proof.
  rewrite (getOrCreate_stored _ _ uuid' (getOrCreate_persisted st uuid)
             (getOrCreate_nonempty st uuid)).
  by destruct (getOrCreateSessionId st uuid).
Qed.

(** After [removeItem] of the key, as after [clear], the next call
    makes a new identifier. *)
Lemma getOrCreate_after_removeItem st uuid :
  getOrCreateSessionId (Storage.removeItem st session_key) uuid
  = ("s_" +:+ uuid,
     Storage.setItem (Storage.removeItem st session_key) session_key
       ("s_" +:+ uuid)).
Proof. apply getOrCreate_fresh. left. apply lookup_delete_eq. Qed.

(** Identifiers made from different UUIDs are different. *)
Lemma fresh_identifier_inj uuid uuid' :
  "s_" +:+ uuid = "s_" +:+ uuid' → uuid = uuid'.
Proof.
  intros H.
  change (String "s" (String "_" uuid) = String "s" (String "_" uuid')) in H.
  congruence.
Qed.

End SessionFacts.

(** With the empty string stored under the key there is no stored
    identifier for [getOrCreateSessionId]: it makes the identifier
    [s_u] from the UUID [u] and writes it over the entry. *)
Lemma getOrCreate_empty_string_replaced :
  Storage.getItem {[ session_key := "" ]} session_key = Some ""
  ∧ getOrCreateSessionId {[ session_key := "" ]} "u"
    = ("s_u", {[ session_key := "s_u" ]}).
Proof.
  split.
  - apply lookup_singleton_eq.
  - rewrite getOrCreate_fresh by (right; apply lookup_singleton_eq).
    unfold Storage.setItem. by rewrite insert_singleton_eq.
Qed.

(** A store without an entry holds no identifier, whatever was drawn. *)
Lemma identifierDrawnFrom_cleared (drawn : list string) (st : Storage.t) :
  identifierDrawnFrom drawn (Storage.clear st).
Proof.
  intros x Hx. unfold Storage.getItem, Storage.clear in Hx.
  by rewrite lookup_empty in Hx.
Qed.

(** A call keeps the store among those whose identifier was made from
    a UUID drawn so far, the UUID of the call counted in. *)
Lemma identifierDrawnFrom_call
    (drawn : list string) (st : Storage.t) (uuid : string) :
  identifierDrawnFrom drawn st →
  identifierDrawnFrom (uuid :: drawn) (snd (getOrCreateSessionId st uuid)).
Proof.
  intros Hst x Hx Hne.
  destruct (Storage.getItem st session_key) as [y|] eqn:Hget.
  - destruct (decide (y = "")) as [->|Hy].
    + rewrite getOrCreate_fresh in Hx by auto.
      cbn [snd] in Hx. unfold Storage.getItem, Storage.setItem in Hx.
      rewrite lookup_insert_eq in Hx.
      injection Hx as <-. exists uuid. split; [left|done].
    + rewrite (getOrCreate_stored st y uuid Hget Hy) in Hx.
      destruct (Hst x Hx Hne) as (u0 & Hin & ->).
      exists u0. split; [by right|done].
  - rewrite getOrCreate_fresh in Hx by auto.
    cbn [snd] in Hx. unfold Storage.getItem, Storage.setItem in Hx.
    rewrite lookup_insert_eq in Hx.
    injection Hx as <-. exists uuid. split; [left|done].
Qed.

(** The identifier a call returns was made from a UUID drawn so far,
    the UUID of the call counted in. *)
Lemma getOrCreate_drawn
    (drawn : list string) (st : Storage.t) (uuid : string) :
  identifierDrawnFrom drawn st →
  ∃ u0 : string,
    u0 ∈ uuid :: drawn ∧ fst (getOrCreateSessionId st uuid) = "s_" +:+ u0.
Proof.
  intros Hst.
  apply (identifierDrawnFrom_call drawn st uuid Hst);
    [apply getOrCreate_persisted|apply getOrCreate_nonempty].
Qed.

(** C7.  A stored identifier, that is a non-empty string under the
    key, is returned and the store is left alone; with no identifier
    stored (no entry, or the empty string) the identifier [s_<uuid>]
    is made from a newly drawn UUID, written under the key and
    returned.  A second call on the resulting store returns the same
    identifier and the same store.  A call on the cleared store makes
    its identifier from the UUID drawn then, and this is a different
    identifier: the stored identifier, if there was one, came from a
    UUID this function drew earlier, and [crypto.randomUUID()] does
    not give a UUID it gave before. *)
Theorem getOrCreateSessionId_idempotent
    (st : Storage.t) (u1 u2 u3 : string) :
  let r1 := getOrCreateSessionId st u1 in
  let r2 := getOrCreateSessionId (snd r1) u2 in
  let r3 := getOrCreateSessionId (Storage.clear (snd r2)) u3 in
  r1 = match Storage.getItem st session_key with
       | Some x =>
           if decide (x = "")
           then ("s_" +:+ u1, Storage.setItem st session_key ("s_" +:+ u1))
           else (x, st)
       | None => ("s_" +:+ u1, Storage.setItem st session_key ("s_" +:+ u1))
       end
  ∧ r2 = r1
  ∧ r3 = ("s_" +:+ u3, {[ session_key := "s_" +:+ u3 ]})
  ∧ (∀ drawn : list string,
       identifierDrawnFrom drawn st →
       u3 ∉ u1 :: drawn →
       fst r3 ≠ fst r1
       ∧ fst r3 ≠ fst r2
       ∧ identifierDrawnFrom (u3 :: u1 :: drawn) (snd r3)).
Proof.
  intros r1 r2 r3.
  assert (H2 : r2 = r1) by apply getOrCreate_twice.
  assert (H3 : r3 = ("s_" +:+ u3, {[ session_key := "s_" +:+ u3 ]})).
  { subst r3. rewrite getOrCreate_fresh by (left; apply lookup_empty).
    reflexivity. }
  split_and!.
  - subst r1. destruct (Storage.getItem st session_key) as [x|] eqn:Hget.
    + destruct (decide (x = "")) as [->|Hne].
      * by rewrite getOrCreate_fresh by auto.
      * by apply getOrCreate_stored.
    + by rewrite getOrCreate_fresh by auto.
  - exact H2.
  - exact H3.
  - intros drawn Hst Hnew.
    destruct (getOrCreate_drawn drawn st u1 Hst) as (u0 & Hin & Hid).
    fold r1 in Hid.
    assert (Hdiff : fst r3 ≠ fst r1).
    { rewrite H3, Hid. cbn [fst]. intros Heq.
      apply fresh_identifier_inj in Heq. by subst u0. }
    split_and!; [exact Hdiff|by rewrite H2|].
    subst r3. apply identifierDrawnFrom_call, identifierDrawnFrom_cleared.
Qed.

(** A store that holds the identifier made from the UUID [u0] on an
    earlier visit, beside another key; the UUIDs [u1] and [u2] could
    be drawn by the two calls, and [u3] is drawn after the store is
    cleared. *)
Lemma getOrCreateSessionId_idempotent_witness :
  let st : Storage.t := {[ session_key := "s_u0"; "theme" := "dark" ]} in
  let r1 := getOrCreateSessionId st "u1" in
  let r2 := getOrCreateSessionId (snd r1) "u2" in
  let r3 := getOrCreateSessionId (Storage.clear (snd r2)) "u3" in
  identifierDrawnFrom ["u0"] st
  ∧ fst r1 = "s_u0"
  ∧ fst r2 = "s_u0"
  ∧ fst r3 = "s_u3"
  ∧ fst r3 ≠ fst r1.
Proof.
  cbn zeta.
  assert (Hst : identifierDrawnFrom ["u0"]
                  ({[ session_key := "s_u0"; "theme" := "dark" ]} : Storage.t)).
  { intros x Hx _. vm_compute in Hx. injection Hx as <-.
    exists "u0". split; [left|reflexivity]. }
  assert (Hnew : "u3" ∉ ["u1"; "u0"]).
  { intros Hin. apply elem_of_cons in Hin as [Hin|Hin]; [discriminate Hin|].
    apply elem_of_cons in Hin as [Hin|Hin]; [discriminate Hin|].
    by apply elem_of_nil in Hin. }
  split_and!; [exact Hst|reflexivity|reflexivity|reflexivity|].
  exact (proj1 (proj2 (proj2 (proj2
           (getOrCreateSessionId_idempotent
              {[ session_key := "s_u0"; "theme" := "dark" ]} "u1" "u2" "u3")))
           ["u0"] Hst Hnew)).
Defined.

(** ** The handlers *)

Section HandlerFacts.

Implicit Types (s : Snapshot) (c : Config) (i k : nat) (req : MoveRequest).

Lemma EmptyBoard_replicate : EmptyBoard = replicate 9 Empty.
Proof. reflexivity. Qed.

(** The two early returns of [onCellClick] test the guard. *)
Lemma moveGuard_tests s i :
  moveGuard s i ↔ canPlay s = true ∧ cellNotEmpty (board s) i = false.
Proof.
  unfold moveGuard, canPlay, cellNotEmpty.
  rewrite andb_true_iff, bool_decide_eq_true, negb_true_iff, negb_false_iff,
    bool_decide_eq_true.
  tauto.
Qed.

Lemma onCellClick_accept s i :
  moveGuard s i →
  onCellClick s i
  = (setBusy true (setError None s),
     [mkMoveRequest (sessionId s) (board s) i]).
Proof.
  intros [Hplay Hcell]%moveGuard_tests. unfold onCellClick.
  by rewrite Hplay, Hcell.
Qed.

Lemma onCellClick_reject s i :
  ¬ moveGuard s i → onCellClick s i = (s, []).
Proof.
  intros Hno. unfold onCellClick.
  destruct (canPlay s) eqn:Hplay; [|reflexivity].
  destruct (cellNotEmpty (board s) i) eqn:Hcell; [reflexivity|].
  destruct Hno. by apply moveGuard_tests.
Qed.

Lemma step_click_accept c i :
  moveGuard (snap c) i →
  step c (Click i)
  = mkConfig (setBusy true (setError None (snap c)))
             (inflight c
              ++ [mkMoveRequest (sessionId (snap c)) (board (snap c)) i]).
Proof. intros H. cbn [step]. by rewrite (onCellClick_accept _ _ H). Qed.

Lemma step_click_reject c i :
  ¬ moveGuard (snap c) i → step c (Click i) = c.
Proof.
  intros H. cbn [step]. rewrite (onCellClick_reject _ _ H).
  cbn [fst snd]. rewrite app_nil_r. by destruct c.
Qed.

Lemma step_settle c k req net :
  inflight c !! k = Some req →
  step c (Settle k net)
  = mkConfig (onCellClick_resume req net (snap c)) (delete k (inflight c)).
Proof. intros H. cbn [step]. by rewrite H. Qed.

(** The resumed handler on a response. *)
Lemma resume_success req res s :
  onCellClick_resume req (FetchOk (inr res)) s
  = mkSnapshot (sessionId s) (res_board res) (res_status res) false (error s)
      (if decide (res_status res = Win)
       then Some (buildTelegramLink (req_sessionId req))
       else tgLink s).
Proof.
  unfold onCellClick_resume. cbn [postMove snd].
  destruct (res_status res); reflexivity.
Qed.

(** The resumed handler on a rejected [postMove]. *)
Lemma resume_failure req net e s :
  snd (postMove (req_sessionId req) (req_board req) (req_cellIndex req)) net
  = inl e →
  onCellClick_resume req net s
  = mkSnapshot (sessionId s) (board s) (status s) false
      (Some (default defaultError (thrown_message e))) (tgLink s).
Proof. intros H. unfold onCellClick_resume. by rewrite H. Qed.

(** The message of the error [postMove] throws on a non-success
    response, by the shape of the body. *)
Lemma postMoveError_message (status : N) (json : option ErrorBody) :
  thrown_message (postMoveError status json)
  = Some match json ≫= body_message with
         | Some (MessageString m) =>
             if decide (m = "") then httpStatusText status else m
         | Some (MessageArray l) => String.concat ", " l
         | None => httpStatusText status
         end.
Proof.
  unfold postMoveError. cbn zeta.
  destruct (json ≫= body_message) as [[m|l]|]; cbn; try reflexivity.
  destruct (String.eqb_spec m ""), (decide (m = "")); by cbn.
Qed.

(** Mounting a fresh component gives the start configuration for the
    identifier [getOrCreateSessionId] returns. *)
Lemma App_mount_start (st : Storage.t) (uuid : string) :
  mkConfig (fst (App_mount st uuid App_initial)) []
  = start (fst (getOrCreateSessionId st uuid)).
Proof. reflexivity. Qed.

Lemma run_snoc c (trace : list Event) (ev : Event) :
  run c (trace ++ [ev]) = step (run c trace) ev.
Proof. unfold run. by rewrite fold_left_app. Qed.

Lemma run_cons c (ev : Event) (trace : list Event) :
  run c (ev :: trace) = run (step c ev) trace.
Proof. reflexivity. Qed.

End HandlerFacts.

(** C4.  Whatever the snapshot was, after [resetGame] the board is
    nine empty cells, the status is in progress, and there is neither
    an error message nor a reward link. *)
Theorem resetGame_fresh_game (c : Config) :
  let s' := snap (step c Reset) in
  board s' = replicate 9 Empty
  ∧ length (board s') = 9
  ∧ status s' = InProgress
  ∧ error s' = None
  ∧ tgLink s' = None.
Proof. by repeat split. Qed.

(** C3.  A click on cell [i] sends a request exactly when the game is
    in progress, no response is awaited and the cell is empty.  It
    then sends one request, with the session identifier, the board as
    it is, and [i], clears the error and raises the busy flag;
    otherwise the click changes nothing at all. *)
Theorem onCellClick_guarded (c : Config) (i : nat) :
  (snd (onCellClick (snap c) i) ≠ [] ↔ moveGuard (snap c) i)
  ∧ (moveGuard (snap c) i →
     snd (onCellClick (snap c) i)
     = [mkMoveRequest (sessionId (snap c)) (board (snap c)) i]
     ∧ step c (Click i)
       = mkConfig (setBusy true (setError None (snap c)))
           (inflight c
            ++ [mkMoveRequest (sessionId (snap c)) (board (snap c)) i]))
  ∧ (¬ moveGuard (snap c) i →
     onCellClick (snap c) i = (snap c, []) ∧ step c (Click i) = c).
Proof.
  split_and!.
  - destruct (decide (moveGuard (snap c) i)) as [Hyes|Hno].
    + by rewrite (onCellClick_accept _ _ Hyes).
    + by rewrite (onCellClick_reject _ _ Hno).
  - intros H. split; [by rewrite (onCellClick_accept _ _ H)|].
    by apply step_click_accept.
  - intros H. split; [by apply onCellClick_reject|by apply step_click_reject].
Qed.

(** A click on the free centre of a fresh board, and a second click
    while the first request is in flight. *)
Lemma onCellClick_guarded_witness :
  step (start "S") (Click 4)
  = mkConfig (mkSnapshot "S" EmptyBoard InProgress true None None)
             [mkMoveRequest "S" EmptyBoard 4]
  ∧ step (step (start "S") (Click 4)) (Click 5) = step (start "S") (Click 4).
Proof.
  split.
  - apply (proj1 (proj2 (onCellClick_guarded (start "S") 4))).
    repeat split.
  - apply (proj2 (proj2 (onCellClick_guarded (step (start "S") (Click 4)) 5))).
    intros (_ & Hbusy & _). discriminate Hbusy.
Defined.

(** ** The invariant of the mounted component *)

Section InvariantFacts.

Implicit Types (s : Snapshot) (c : Config) (i k : nat) (sid : string).

Lemma Inv_start sid : Inv sid (start sid).
Proof. unfold Inv. cbn. split_and!; auto. Qed.

Lemma Inv_step sid c (ev : Event) : Inv sid c → Inv sid (step c ev).
Proof.
  intros (Hsid & Hfly & Hlink & Herr). destruct ev as [i| | |k net].
  - destruct (decide (moveGuard (snap c) i)) as [Hyes|Hno];
      [|by rewrite step_click_reject].
    rewrite step_click_accept by done.
    destruct Hyes as (Hst & Hbusy & _).
    destruct Hfly as [[Hnil _]|(? & _ & ? & _)]; [|congruence].
    destruct Hlink as [Hnone|[? _]]; [|congruence].
    unfold Inv. cbn. rewrite Hnil. split_and!; eauto 6.
  - unfold Inv. cbn. split_and!; auto.
  - unfold Inv. cbn. split_and!; auto.
  - destruct (inflight c !! k) as [req|] eqn:Hk;
      [|by cbn [step]; rewrite Hk].
    rewrite (step_settle _ _ _ _ Hk).
    destruct Hfly as [[Hnil _]|(req' & Hone & _ & _)];
      [by rewrite Hnil in Hk|].
    rewrite Hone in Hk |- *.
    destruct k as [|k]; [|done]. cbn in Hk. injection Hk as ->.
    destruct Hlink as [Hnone|[_ ?]]; [|congruence].
    assert (Hcases :
      (∃ res, net = FetchOk (inr res))
      ∨ (∃ e, snd (postMove (req_sessionId req) (req_board req)
                     (req_cellIndex req)) net = inl e)).
    { destruct net as [e|[e|res]|status json]; cbn; eauto. }
    destruct Hcases as [[res ->]|[e He]].
    + rewrite resume_success. unfold Inv. cbn.
      split_and!; [done|auto| |done].
      destruct (decide (res_status res = Win)); auto.
    + rewrite (resume_failure _ _ _ _ He). unfold Inv. cbn.
      split_and!; auto. discriminate.
Qed.

Lemma Inv_run sid c (trace : list Event) : Inv sid c → Inv sid (run c trace).
Proof.
  revert c. induction trace as [|ev trace IH]; intros c Hc; [done|].
  rewrite run_cons. by apply IH, Inv_step.
Qed.

(** Every configuration of a mounted component satisfies the invariant. *)
Lemma Inv_reachable sid (trace : list Event) : Inv sid (run (start sid) trace).
Proof. apply Inv_run, Inv_start. Qed.

(** While a request is in flight, no click, reset or closing of the
    modal lowers the busy flag or touches the request. *)
Lemma busy_until_settled sid c (trace : list Event) :
  Inv sid c → inflight c ≠ [] → Forall notSettle trace →
  busy (snap (run c trace)) = true ∧ inflight (run c trace) = inflight c.
Proof.
  revert c. induction trace as [|ev trace IH]; intros c Hc Hfly Hns.
  - destruct Hc as (_ & [[? _]|(? & _ & ? & _)] & _); done.
  - rewrite run_cons. inversion Hns as [|? ? Hev Hrest]; subst.
    assert (Hsame : inflight (step c ev) = inflight c).
    { destruct ev as [i| | |]; [|done|done|done].
      rewrite step_click_reject; [done|].
      intros (_ & Hbusy & _).
      destruct Hc as (_ & [[? _]|(? & _ & ? & _)] & _); congruence. }
    rewrite <- Hsame. apply IH; [by apply Inv_step|by rewrite Hsame|done].
Qed.

(** While a request is in flight, clicks and closings of the modal
    change nothing. *)
Lemma quiet_step_noop sid c (ev : Event) :
  Inv sid c → inflight c ≠ [] → quiet ev → step c ev = c.
Proof.
  intros (_ & Hfly & Hlink & _) Hne Hq.
  destruct Hfly as [[? _]|(req & Hone & Hbusy & _)]; [done|].
  destruct ev as [i| | |]; [|done| |done].
  - apply step_click_reject. intros (_ & ? & _). congruence.
  - destruct Hlink as [Hnone|[_ ?]]; [|congruence].
    destruct c as [[] ?]. cbn in *. by rewrite Hnone.
Qed.

Lemma quiet_run_noop sid c (trace : list Event) :
  Inv sid c → inflight c ≠ [] → Forall quiet trace → run c trace = c.
Proof.
  intros Hc Hne. induction 1 as [|ev trace Hq _ IH]; [done|].
  by rewrite run_cons, (quiet_step_noop sid c ev).
Qed.

(** At most one request is in flight, and a click while it is sends
    nothing. *)
Lemma at_most_one_in_flight sid (trace : list Event) :
  (length (inflight (run (start sid) trace)) ≤ 1)%nat.
Proof.
  destruct (Inv_reachable sid trace) as (_ & [[-> _]|(? & -> & _)] & _);
    cbn; lia.
Qed.

(** Once the game is over no click sends a request. *)
Lemma terminal_status_rejects_moves c i :
  status (snap c) ≠ InProgress → step c (Click i) = c.
Proof. intros H. apply step_click_reject. by intros [? _]. Qed.

(** Boards of nine cells are kept by every event whose response board
    has nine cells. *)
Lemma step_board_length c (ev : Event) :
  length (board (snap c)) = 9 → responseBoardOfNine ev →
  length (board (snap (step c ev))) = 9.
Proof.
  intros Hc Hev. destruct ev as [i| | |k net]; [|done|done|].
  - destruct (decide (moveGuard (snap c) i)) as [Hyes|Hno].
    + by rewrite step_click_accept.
    + by rewrite step_click_reject.
  - cbn [step]. destruct (inflight c !! k) as [req|]; [|done].
    destruct net as [e|[e|res]|status json]; [done|done| |done].
    cbn [snap]. by rewrite resume_success.
Qed.

Lemma run_board_length c (trace : list Event) :
  length (board (snap c)) = 9 → Forall responseBoardOfNine trace →
  length (board (snap (run c trace))) = 9.
Proof.
  revert c. induction trace as [|ev trace IH]; intros c Hc Hall; [done|].
  inversion Hall; subst. rewrite run_cons.
  apply IH; [by apply step_board_length|done].
Qed.

End InvariantFacts.

(** C10.  [resetGame] leaves the session identifier and the busy flag
    as they were, and the requests in flight stay in flight; so after
    a reset with a request in flight the busy flag stays raised for as
    long as nothing settles that request. *)
Theorem resetGame_frame :
  (∀ c : Config,
     sessionId (snap (step c Reset)) = sessionId (snap c)
     ∧ busy (snap (step c Reset)) = busy (snap c)
     ∧ inflight (step c Reset) = inflight c)
  ∧ (∀ (sid : string) (trace after : list Event),
       inflight (run (start sid) trace) ≠ [] →
       Forall notSettle after →
       busy (snap (run (run (start sid) trace) (Reset :: after))) = true).
Proof.
  split; [by repeat split|].
  intros sid trace after Hfly Hafter.
  by apply (busy_until_settled sid);
    [apply Inv_reachable| |constructor].
Qed.

(** A reset, a click and a closing of the modal while the request of
    the first click is in flight. *)
Lemma resetGame_frame_witness :
  busy (snap (run (start "S") [Click 4])) = true
  ∧ busy (snap (run (run (start "S") [Click 4])
                  [Reset; Click 0; CloseModal])) = true.
Proof.
  split; [reflexivity|].
  apply (proj2 resetGame_frame "S" [Click 4] [Click 0; CloseModal]).
  - discriminate.
  - repeat constructor.
Defined.

(** ** Move submissions *)

(** C1.  In a mounted component, when the request of an accepted move
    is answered with a response [r], the board becomes [r]'s board
    and the status [r]'s status, as they are; when [r]'s status is a
    win the reward link is the one built from the session identifier,
    and for every other status there is no reward link, as there was
    none before; the busy flag is lowered. *)
Theorem move_success_applied
    (sid : string) (trace : list Event) (k : nat) (req : MoveRequest)
    (r : MoveResponse) :
  let c := run (start sid) trace in
  let c' := step c (Settle k (FetchOk (inr r))) in
  inflight c !! k = Some req →
  board (snap c') = res_board r
  ∧ status (snap c') = res_status r
  ∧ tgLink (snap c')
    = (if decide (res_status r = Win)
       then Some (buildTelegramLink (sessionId (snap c)))
       else None)
  ∧ tgLink (snap c) = None
  ∧ busy (snap c') = false.
Proof.
  intros c c' Hk. subst c'. rewrite (step_settle _ _ _ _ Hk).
  cbn [snap]. rewrite resume_success. cbn.
  destruct (Inv_reachable sid trace) as (Hsid & Hfly & Hlink & _).
  fold c in Hsid, Hfly, Hlink.
  destruct Hfly as [[Hnil _]|(req' & Hone & _ & Hreq)];
    [by rewrite Hnil in Hk|].
  assert (req' = req) as ->.
  { rewrite Hone in Hk. destruct k; [by injection Hk|done]. }
  destruct Hlink as [Hnone|[_ ?]]; [|congruence].
  rewrite Hnone, Hsid, Hreq. by destruct (decide (res_status r = Win)).
Qed.

(** The scenario of the specification: the centre of the empty board
    is played and the server answers with a win. *)
Lemma move_success_applied_witness :
  let r := mkMoveResponse true Win
             [Empty; Empty; Empty; Empty; Player; Empty; Empty; Empty; Opponent]
             None in
  let s' := snap (run (start "S") [Click 4; Settle 0 (FetchOk (inr r))]) in
  board s' = res_board r
  ∧ status s' = Win
  ∧ tgLink s' = Some "https://t.me/ttt432_bot?start=S"
  ∧ tgLink (snap (run (start "S") [Click 4])) = None
  ∧ busy s' = false.
Proof.
  exact (move_success_applied "S" [Click 4] 0
           (mkMoveRequest "S" EmptyBoard 4)
           (mkMoveResponse true Win
              [Empty; Empty; Empty; Empty; Player; Empty; Empty; Empty; Opponent]
              None)
           eq_refl).
Defined.

(** C2, the reading that fails.  First, a non-success response whose
    body carries the empty string as its message: the error shown is
    the status description [HTTP 400], not the body's message string.
    Second, a move on a board with two marks, a reset while its
    request is in flight, and then the failure of that request: the
    board is the empty board of the reset, not the board from before
    the move. *)
Lemma failed_move_not_as_described :
  let json := Some (mkErrorBody (Some (MessageString ""))) in
  let s1 := snap (run (start "S") [Click 4; Settle 0 (FetchNotOk 400 json)]) in
  let marked :=
    [Empty; Empty; Empty; Empty; Player; Empty; Empty; Empty; Opponent] in
  let c := run (start "S")
             [Click 4;
              Settle 0 (FetchOk (inr (mkMoveResponse true InProgress marked None)))] in
  let s2 := snap (run c [Click 0; Reset; Settle 0 (FetchNotOk 500 None)]) in
  (moveGuard (snap (start "S")) 4
   ∧ error s1 = Some "HTTP 400"
   ∧ describedErrorMessage 400 json = ""
   ∧ error s1 ≠ Some (describedErrorMessage 400 json))
  ∧ (moveGuard (snap c) 0
     ∧ board (snap c) = marked
     ∧ board s2 = EmptyBoard
     ∧ board s2 ≠ board (snap c)).
Proof.
  cbn zeta. split; split_and!;
    try reflexivity; try (by repeat split); by vm_compute.
Qed.

(** C2, as the code has it.  In a mounted component, when the request
    of an accepted move fails, with nothing but clicks and closings
    of the modal since the move, the board, the status and the reward
    link are what they were before the move, the busy flag is off,
    and the error is the message of the value [postMove] rejected
    with (a fixed text when that value has no message).  For a
    non-success response that message is the body's message string
    when it is not empty, the body's message list joined with a comma
    and a space, and otherwise ([HTTP] and the status code) when the
    body cannot be read, has no message, or has the empty string as
    message. *)
Theorem move_failure_keeps_game
    (sid : string) (trace mid : list Event) (i : nat) :
  let c := run (start sid) trace in
  let after net := snap (run c (Click i :: mid ++ [Settle 0 net])) in
  moveGuard (snap c) i →
  Forall quiet mid →
  (∀ (net : FetchResult) (e : Thrown),
     snd (postMove (sessionId (snap c)) (board (snap c)) i) net = inl e →
     board (after net) = board (snap c)
     ∧ status (after net) = status (snap c)
     ∧ tgLink (after net) = tgLink (snap c)
     ∧ busy (after net) = false
     ∧ error (after net) = Some (default defaultError (thrown_message e)))
  ∧ (∀ (status : N) (json : option ErrorBody),
       error (after (FetchNotOk status json))
       = Some match json ≫= body_message with
              | Some (MessageString m) =>
                  if decide (m = "") then httpStatusText status else m
              | Some (MessageArray l) => String.concat ", " l
              | None => httpStatusText status
              end).
Proof.
  intros c after Hguard Hmid.
  pose proof (Inv_reachable sid trace) as Hinv. fold c in Hinv.
  assert (Hnil : inflight c = []).
  { destruct Hguard as (_ & Hbusy & _).
    destruct Hinv as (_ & [[? _]|(? & _ & ? & _)] & _); congruence. }
  assert (Hrun : ∀ net e,
    snd (postMove (sessionId (snap c)) (board (snap c)) i) net = inl e →
    after net
    = mkSnapshot (sessionId (snap c)) (board (snap c)) (status (snap c)) false
        (Some (default defaultError (thrown_message e))) (tgLink (snap c))).
  { intros net e He. subst after. cbn beta.
    rewrite run_cons.
    change (run (step c (Click i)) (mid ++ [Settle 0 net]))
      with (fold_left step (mid ++ [Settle 0 net]) (step c (Click i))).
    rewrite fold_left_app.
    change (fold_left step mid (step c (Click i)))
      with (run (step c (Click i)) mid).
    rewrite (quiet_run_noop sid) by
      (first [by apply Inv_step
             |by rewrite step_click_accept, Hnil
             |done]).
    rewrite (step_click_accept _ _ Hguard), Hnil. cbn [fold_left app].
    erewrite step_settle by reflexivity.
    cbn [snap]. by rewrite (resume_failure _ _ _ _ He). }
  split.
  - intros net e He. by rewrite (Hrun net e He).
  - intros status json.
    rewrite (Hrun (FetchNotOk status json) (postMoveError status json) eq_refl).
    cbn [error]. by rewrite postMoveError_message.
Qed.

(** The scenario of the specification: HTTP 400 with the body
    [{ message: ["cellIndex out of range"] }], after a second click
    on the board while the request was in flight. *)
Lemma move_failure_keeps_game_witness :
  let json := Some (mkErrorBody (Some (MessageArray ["cellIndex out of range"]))) in
  let s' := snap (run (start "S")
                    [Click 4; Click 0; Settle 0 (FetchNotOk 400 json)]) in
  moveGuard (snap (start "S")) 4
  ∧ board s' = EmptyBoard
  ∧ status s' = InProgress
  ∧ tgLink s' = None
  ∧ busy s' = false
  ∧ error s' = Some "cellIndex out of range".
Proof.
  assert (Hguard : moveGuard (snap (start "S")) 4) by (by repeat split).
  assert (Hmid : Forall quiet [Click 0]) by (by repeat constructor).
  split; [exact Hguard|].
  destruct (move_failure_keeps_game "S" [] [Click 0] 4 Hguard Hmid)
    as [Hframe Hmsg].
  destruct (Hframe
              (FetchNotOk 400
                 (Some (mkErrorBody
                          (Some (MessageArray ["cellIndex out of range"])))))
              _ eq_refl) as (Hb & Hs & Hl & Hz & _).
  split_and!; [exact Hb|exact Hs|exact Hl|exact Hz|].
  exact (Hmsg 400%N
           (Some (mkErrorBody (Some (MessageArray ["cellIndex out of range"]))))).
Defined.

(** ** Reset while a request is in flight *)

(** C5, the reading that fails.  The centre of the empty board is
    played, the game is reset while the request is in flight, and the
    response arrives afterwards: the board of the response replaces
    the board of the reset game. *)
Lemma late_response_overwrites_reset :
  let c := run (start "S") [Click 4] in
  let net := FetchOk (inr (mkMoveResponse true InProgress
               [Empty; Empty; Empty; Empty; Player; Empty; Empty; Empty; Opponent]
               None)) in
  inflight c = [mkMoveRequest "S" EmptyBoard 4]
  ∧ board (snap (step c Reset)) = EmptyBoard
  ∧ board (snap (run c [Reset; Settle 0 net]))
    = [Empty; Empty; Empty; Empty; Player; Empty; Empty; Empty; Opponent]
  ∧ ¬ staleResponseDiscarded c 0 net.
Proof.
  cbn zeta. split_and!; [reflexivity|reflexivity|reflexivity|].
  intros [Hboard _]. vm_compute in Hboard. discriminate Hboard.
Qed.

(** C5, as the code has it.  [resetGame] does not cancel a request in
    flight, and the handler resumed by its outcome does not look at
    whether a reset happened.  A response [r] that arrives after the
    reset is applied like any other: the board and the status are
    [r]'s, the reward link is built from the session identifier of
    the request when [r] is a win and absent otherwise.  A failure
    that arrives after the reset leaves the board, status and link of
    the reset game and sets the error message. *)
Theorem late_response_applied_after_reset
    (c : Config) (k : nat) (req : MoveRequest) :
  inflight c !! k = Some req →
  inflight (step c Reset) !! k = Some req
  ∧ (∀ r : MoveResponse,
       let s' := snap (run c [Reset; Settle k (FetchOk (inr r))]) in
       board s' = res_board r
       ∧ status s' = res_status r
       ∧ tgLink s'
         = (if decide (res_status r = Win)
            then Some (buildTelegramLink (req_sessionId req))
            else None)
       ∧ error s' = None
       ∧ busy s' = false)
  ∧ (∀ (net : FetchResult) (e : Thrown),
       snd (postMove (req_sessionId req) (req_board req) (req_cellIndex req))
           net = inl e →
       let s' := snap (run c [Reset; Settle k net]) in
       board s' = EmptyBoard
       ∧ status s' = InProgress
       ∧ tgLink s' = None
       ∧ error s' = Some (default defaultError (thrown_message e))
       ∧ busy s' = false).
Proof.
  intros Hk.
  assert (Hrun : ∀ net,
    snap (run c [Reset; Settle k net])
    = onCellClick_resume req net (resetGame (snap c))).
  { intros net. rewrite run_cons. unfold run. cbn [fold_left].
    by rewrite (step_settle (step c Reset) k req net Hk). }
  split_and!.
  - exact Hk.
  - intros r. cbn zeta. rewrite Hrun, resume_success. cbn.
    by destruct (decide (res_status r = Win)).
  - intros net e He. cbn zeta. by rewrite Hrun, (resume_failure _ _ _ _ He).
Qed.

(** A win that arrives after the reset of the game it belongs to. *)
Lemma late_response_applied_after_reset_witness :
  let r := mkMoveResponse true Win
             [Empty; Empty; Empty; Empty; Player; Empty; Empty; Empty; Opponent]
             None in
  let s' := snap (run (start "S") [Click 4; Reset; Settle 0 (FetchOk (inr r))]) in
  inflight (run (start "S") [Click 4]) !! 0 = Some (mkMoveRequest "S" EmptyBoard 4)
  ∧ board s' = res_board r
  ∧ status s' = Win
  ∧ tgLink s' = Some "https://t.me/ttt432_bot?start=S"
  ∧ error s' = None
  ∧ busy s' = false.
Proof.
  split; [reflexivity|].
  exact (proj1 (proj2
           (late_response_applied_after_reset (run (start "S") [Click 4]) 0
              (mkMoveRequest "S" EmptyBoard 4) eq_refl))
           (mkMoveResponse true Win
              [Empty; Empty; Empty; Empty; Player; Empty; Empty; Empty; Opponent]
              None)).
Defined.

(** ** Invariants of the reachable snapshots *)

(** C8, the reading that fails.  A response whose board has no cells
    is applied as it is: the board of the snapshot then has length 0. *)
Lemma short_response_board_applied :
  length (board (snap (run (start "S")
            [Click 4;
             Settle 0 (FetchOk (inr (mkMoveResponse true InProgress [] None)))])))
  = 0
  ∧ ¬ (∀ (sid : string) (trace : list Event),
         length (board (snap (run (start sid) trace))) = 9).
Proof.
  split; [reflexivity|]. intros H.
  specialize (H "S"
    [Click 4; Settle 0 (FetchOk (inr (mkMoveResponse true InProgress [] None)))]).
  discriminate H.
Qed.

(** C8, as the code has it.  The board has nine cells at
    initialisation, after every reset, click and failed request, and
    after every response whose own board has nine cells; the
    controller does not look at the length of a response board. *)
Theorem board_length_nine (sid : string) (trace : list Event) :
  Forall responseBoardOfNine trace →
  length (board (snap (run (start sid) trace))) = 9.
Proof. by apply run_board_length. Qed.

(** A move answered with a board of nine cells, a reset, and a move
    that fails. *)
Lemma board_length_nine_witness :
  length (board (snap (run (start "S")
    [Click 4;
     Settle 0 (FetchOk (inr (mkMoveResponse true InProgress
       [Empty; Empty; Empty; Empty; Player; Empty; Empty; Empty; Opponent]
       None)));
     Reset;
     Click 0;
     Settle 0 (FetchNotOk 500 None)]))) = 9.
Proof.
  apply (board_length_nine "S").
  repeat (constructor; [exact I || reflexivity|]). constructor.
Defined.

(** C9.  An accepted click leaves no error message and raises the
    busy flag before the request is sent; and in every snapshot of a
    mounted component, a raised busy flag means there is no error
    message. *)
Theorem busy_has_no_error :
  (∀ (c : Config) (i : nat),
     moveGuard (snap c) i →
     error (snap (step c (Click i))) = None
     ∧ busy (snap (step c (Click i))) = true)
  ∧ (∀ (sid : string) (trace : list Event),
       busy (snap (run (start sid) trace)) = true →
       error (snap (run (start sid) trace)) = None).
Proof.
  split.
  - intros c i H. by rewrite (step_click_accept _ _ H).
  - intros sid trace. by destruct (Inv_reachable sid trace) as (_ & _ & _ & H).
Qed.

(** A failed move leaves its message; the next accepted click clears
    it while the new request is in flight. *)
Lemma busy_has_no_error_witness :
  let c := run (start "S") [Click 4; Settle 0 (FetchNotOk 500 None)] in
  error (snap c) = Some "HTTP 500"
  ∧ moveGuard (snap c) 4
  ∧ error (snap (step c (Click 4))) = None
  ∧ busy (snap (run (start "S")
                  [Click 4; Settle 0 (FetchNotOk 500 None); Click 4])) = true
  ∧ error (snap (run (start "S")
                   [Click 4; Settle 0 (FetchNotOk 500 None); Click 4])) = None.
Proof.
  cbn zeta.
  assert (Hguard : moveGuard
            (snap (run (start "S") [Click 4; Settle 0 (FetchNotOk 500 None)])) 4)
    by (by repeat split).
  split_and!.
  - reflexivity.
  - exact Hguard.
  - exact (proj1 (proj1 busy_has_no_error _ 4 Hguard)).
  - reflexivity.
  - exact (proj2 busy_has_no_error "S"
             [Click 4; Settle 0 (FetchNotOk 500 None); Click 4] eq_refl).
Defined.

(** ** More about runs of the component *)

Section RunFacts.

Implicit Types (s : Snapshot) (c : Config) (i k : nat) (sid : string).

Lemma GameInv_start sid : GameInv sid (start sid).
Proof. split; [discriminate|done]. Qed.

Lemma GameInv_step sid c (ev : Event) :
  Inv sid c → GameInv sid c → GameInv sid (step c ev).
Proof.
  intros (Hsid & Hfly & _ & _) [Hlink Hover]. destruct ev as [i| | |k net].
  - destruct (decide (moveGuard (snap c) i)) as [Hyes|Hno];
      [|by rewrite step_click_reject].
    rewrite step_click_accept by done. destruct Hyes as (Hst & _ & _).
    split; [exact Hlink|]. cbn. by intros [].
  - split; cbn; [discriminate|done].
  - split; cbn; [discriminate|exact Hover].
  - destruct (inflight c !! k) as [req|] eqn:Hk;
      [|by cbn [step]; rewrite Hk].
    rewrite (step_settle _ _ _ _ Hk).
    destruct Hfly as [[Hnil _]|(req' & Hone & _ & Hreq)];
      [by rewrite Hnil in Hk|].
    rewrite Hone in Hk |- *.
    destruct k as [|k]; [|done]. cbn in Hk. injection Hk as ->.
    split; [|done]. cbn [snap].
    destruct net as [e|[e|res]|status json].
    + by rewrite (resume_failure req (FetchRejected e) e _ eq_refl).
    + by rewrite (resume_failure req (FetchOk (inl e)) e _ eq_refl).
    + rewrite resume_success. cbn.
      destruct (decide (res_status res = Win)); [|exact Hlink].
      intros l [= <-]. by rewrite Hreq.
    + by rewrite (resume_failure req (FetchNotOk status json)
                    (postMoveError status json) _ eq_refl).
Qed.

Lemma GameInv_run sid c (trace : list Event) :
  Inv sid c → GameInv sid c → GameInv sid (run c trace).
Proof.
  revert c. induction trace as [|ev trace IH]; intros c Hc Hg; [done|].
  rewrite run_cons. apply IH; [by apply Inv_step|by apply GameInv_step].
Qed.

Lemma GameInv_reachable sid (trace : list Event) :
  GameInv sid (run (start sid) trace).
Proof. apply GameInv_run; [apply Inv_start|apply GameInv_start]. Qed.

Lemma requestsSent_click c i :
  match decide (moveGuard (snap c) i) with
  | left _ =>
      snd (onCellClick (snap c) i)
      = [mkMoveRequest (sessionId (snap c)) (board (snap c)) i]
  | right _ => snd (onCellClick (snap c) i) = []
  end.
Proof.
  destruct (decide (moveGuard (snap c) i)) as [Hyes|Hno].
  - by rewrite (onCellClick_accept _ _ Hyes).
  - by rewrite (onCellClick_reject _ _ Hno).
Qed.

Lemma requestsSent_wellFormed sid c (trace : list Event) :
  Inv sid c → Forall (wellFormedRequest sid) (requestsSent c trace).
Proof.
  revert c. induction trace as [|ev trace IH]; intros c Hc; [constructor|].
  cbn [requestsSent]. apply Forall_app. split; [|by apply IH, Inv_step].
  destruct ev as [i| | |]; try constructor.
  pose proof (requestsSent_click c i) as Hsent.
  destruct (decide (moveGuard (snap c) i)) as [(_ & _ & Hcell)|_];
    rewrite Hsent; repeat constructor; cbn; [by destruct Hc|done].
Qed.

Lemma requestsSent_nine c (trace : list Event) :
  length (board (snap c)) = 9 → Forall responseBoardOfNine trace →
  Forall (λ req, length (req_board req) = 9) (requestsSent c trace).
Proof.
  revert c. induction trace as [|ev trace IH]; intros c Hc Hall; [constructor|].
  inversion Hall; subst. cbn [requestsSent]. apply Forall_app.
  split; [|by apply IH; [apply step_board_length|]].
  destruct ev as [i| | |]; try constructor.
  pose proof (requestsSent_click c i) as Hsent.
  destruct (decide (moveGuard (snap c) i)); rewrite Hsent;
    repeat constructor; done.
Qed.

(** What is in flight at the end and what was settled account for
    what was in flight at the start and what was sent since. *)
Lemma requestsSent_accounted c (trace : list Event) :
  (length (inflight c) + length (requestsSent c trace)
   ≤ length (inflight (run c trace)) + settles trace)%nat.
Proof.
  revert c. induction trace as [|ev trace IH]; intros c; [cbn; lia|].
  rewrite run_cons. cbn [requestsSent]. rewrite length_app.
  specialize (IH (step c ev)). destruct ev as [i| | |k net]; cbn [settles].
  - cbn [step inflight] in IH. rewrite length_app in IH.
    cbn [step inflight fst snd] in *. lia.
  - cbn [step inflight length] in *. lia.
  - cbn [step inflight length] in *. lia.
  - assert (length (inflight c) ≤ S (length (inflight (step c (Settle k net)))))%nat.
    { cbn [step]. destruct (inflight c !! k) as [req|] eqn:Hk; [|lia].
      cbn [inflight]. apply lookup_lt_Some in Hk.
      rewrite length_delete by (by apply lookup_lt_is_Some_2). lia. }
    cbn [length] in *. lia.
Qed.

(** A finished game has nothing in flight and is not busy. *)
Lemma finished_nothing_in_flight sid c :
  Inv sid c → GameInv sid c → status (snap c) ≠ InProgress →
  inflight c = [] ∧ busy (snap c) = false.
Proof.
  intros (_ & Hfly & _) [_ Hover] Hst. specialize (Hover Hst).
  split; [done|]. destruct Hfly as [[_ ?]|(? & ? & _)]; congruence.
Qed.

End RunFacts.

(** X1.  Every request a mounted component sends, in any run, carries
    the session identifier of the component and asks for a cell that
    is empty on the board the request carries; the cell index is
    therefore inside that board. *)
Theorem requests_well_formed (sid : string) (trace : list Event) :
  Forall (λ req, req_sessionId req = sid
                 ∧ req_board req !! req_cellIndex req = Some Empty
                 ∧ (req_cellIndex req < length (req_board req))%nat)
         (requestsSent (start sid) trace).
Proof.
  eapply Forall_impl; [apply (requestsSent_wellFormed sid), Inv_start|].
  intros req [Hsid Hcell]. split_and!; [done|done|].
  by apply lookup_lt_Some in Hcell.
Qed.

(** X2.  When every response board has nine cells, every request sent
    carries a board of nine cells and a cell index from 0 to 8. *)
Theorem requests_in_range (sid : string) (trace : list Event) :
  Forall responseBoardOfNine trace →
  Forall (λ req, length (req_board req) = 9 ∧ (req_cellIndex req ≤ 8)%nat)
         (requestsSent (start sid) trace).
Proof.
  intros Hall.
  pose proof (requestsSent_nine (start sid) trace eq_refl Hall) as Hnine.
  pose proof (requestsSent_wellFormed sid (start sid) trace (Inv_start sid))
    as Hwf.
  apply Forall_forall. intros req Hin.
  rewrite Forall_forall in Hnine, Hwf.
  specialize (Hnine req Hin). destruct (Hwf req Hin) as [_ Hcell].
  apply lookup_lt_Some in Hcell. split; [done|lia].
Qed.

(** Two moves, the first answered with a board of nine cells. *)
Lemma requests_in_range_witness :
  Forall (λ req, length (req_board req) = 9 ∧ (req_cellIndex req ≤ 8)%nat)
    (requestsSent (start "S")
       [Click 4;
        Settle 0 (FetchOk (inr (mkMoveResponse true InProgress
          [Empty; Empty; Empty; Empty; Player; Empty; Empty; Empty; Opponent]
          None)));
        Click 0]).
Proof.
  apply (requests_in_range "S").
  repeat (constructor; [exact I || reflexivity|]). constructor.
Defined.

(** X3.  However many clicks arrive, the requests sent in a run are at
    most one more than the outcomes delivered: a new request is only
    sent after the one before it has settled. *)
Theorem requests_bounded_by_settles (sid : string) (trace : list Event) :
  (length (requestsSent (start sid) trace) ≤ S (settles trace))%nat.
Proof.
  pose proof (requestsSent_accounted (start sid) trace) as Hacc.
  pose proof (at_most_one_in_flight sid trace) as Hone.
  cbn [start inflight length] in Hacc. lia.
Qed.

(** X4.  In every snapshot of a mounted component the busy flag is up
    exactly when a request is in flight, at most one request is in
    flight, and the icon of the reset button spins exactly then. *)
Theorem busy_iff_in_flight (sid : string) (trace : list Event) :
  let c := run (start sid) trace in
  busy (snap c) = bool_decide (inflight c ≠ [])
  ∧ (length (inflight c) ≤ 1)%nat
  ∧ resetIconClass (snap c)
    = (if bool_decide (inflight c ≠ [])
       then "h-4 w-4 animate-spin" else "h-4 w-4").
Proof.
  intros c.
  destruct (Inv_reachable sid trace) as (_ & Hfly & _). fold c in Hfly.
  unfold resetIconClass.
  destruct Hfly as [[-> ->]|(req & -> & -> & _)]; cbn; split_and!; done || lia.
Qed.

(** X5.  Once the status is a win, a loss or a draw, nothing is in
    flight, the busy flag is down, and clicks and closings of the
    modal send no request and change neither board nor status: only a
    reset starts the next game. *)
Theorem finished_game_frozen
    (sid : string) (trace after : list Event) :
  let c := run (start sid) trace in
  status (snap c) ≠ InProgress →
  Forall quiet after →
  inflight c = []
  ∧ busy (snap c) = false
  ∧ requestsSent c after = []
  ∧ board (snap (run c after)) = board (snap c)
  ∧ status (snap (run c after)) = status (snap c)
  ∧ status (snap (step c Reset)) = InProgress.
Proof.
  intros c Hover Hq.
  destruct (finished_nothing_in_flight sid c (Inv_reachable sid trace)
              (GameInv_reachable sid trace) Hover) as [Hnil Hbusy].
  split_and!; [done|done| | | |done].
  all: clearbody c; clear Hnil Hbusy; revert c Hover;
    induction Hq as [|ev after Hev _ IH]; intros c Hover; [done..|].
  - cbn [requestsSent]. destruct ev as [i| | |]; [|done| |done].
    + rewrite step_click_reject by (by intros [? _]).
      rewrite onCellClick_reject by (by intros [? _]). by apply IH.
    + cbn [app]. by apply IH.
  - rewrite run_cons. destruct ev as [i| | |]; [|done| |done].
    + rewrite step_click_reject by (by intros [? _]). by apply IH.
    + by rewrite IH.
  - rewrite run_cons. destruct ev as [i| | |]; [|done| |done].
    + rewrite step_click_reject by (by intros [? _]). by apply IH.
    + by rewrite IH.
Qed.

(** A lost game, then two clicks and a closing of the modal. *)
Lemma finished_game_frozen_witness :
  let c := run (start "S")
             [Click 4;
              Settle 0 (FetchOk (inr (mkMoveResponse true Lose
                [Opponent; Opponent; Opponent; Empty; Player; Player; Empty;
                 Empty; Empty] None)))] in
  requestsSent c [Click 3; CloseModal; Click 6] = []
  ∧ board (snap (run c [Click 3; CloseModal; Click 6])) = board (snap c)
  ∧ status (snap (run c [Click 3; CloseModal; Click 6])) = Lose.
Proof.
  cbn zeta.
  destruct (finished_game_frozen "S"
              [Click 4;
               Settle 0 (FetchOk (inr (mkMoveResponse true Lose
                 [Opponent; Opponent; Opponent; Empty; Player; Player; Empty;
                  Empty; Empty] None)))]
              [Click 3; CloseModal; Click 6])
    as (_ & _ & Hsent & Hboard & Hstatus & _).
  - discriminate.
  - repeat constructor.
  - split_and!; [exact Hsent|exact Hboard|exact Hstatus].
Defined.

(** X6.  In every snapshot of a mounted component, a stored reward
    link is the link built from the component's session identifier,
    the status is a win, nothing is in flight, and the modal is shown
    with that link. *)
Theorem reward_link_of_session
    (sid : string) (trace : list Event) (l : string) :
  let c := run (start sid) trace in
  tgLink (snap c) = Some l →
  l = buildTelegramLink sid
  ∧ status (snap c) = Win
  ∧ inflight c = []
  ∧ linkModal (snap c) = Some l.
Proof.
  intros c Hl.
  destruct (GameInv_reachable sid trace) as [Hlink _]. fold c in Hlink.
  destruct (Inv_reachable sid trace) as (_ & _ & Hwin & _). fold c in Hwin.
  destruct Hwin as [?|[Hst Hnil]]; [congruence|].
  split_and!; [by apply Hlink|done|done|].
  unfold linkModal. rewrite Hl, (Hlink l Hl). reflexivity.
Qed.

(** A won game. *)
Lemma reward_link_of_session_witness :
  linkModal (snap (run (start "S")
    [Click 4;
     Settle 0 (FetchOk (inr (mkMoveResponse true Win
       [Empty; Empty; Empty; Empty; Player; Empty; Empty; Empty; Opponent]
       None)))]))
  = Some "https://t.me/ttt432_bot?start=S".
Proof.
  exact (proj2 (proj2 (proj2
    (reward_link_of_session "S"
       [Click 4;
        Settle 0 (FetchOk (inr (mkMoveResponse true Win
          [Empty; Empty; Empty; Empty; Player; Empty; Empty; Empty; Opponent]
          None)))]
       "https://t.me/ttt432_bot?start=S" eq_refl)))).
Defined.

(** X7.  The board and the status change only by a reset or by a
    response: a click, accepted or not, a closing of the modal and a
    failed request leave both as they are, so a clicked cell stays
    empty until the server answers.  No event changes the session
    identifier. *)
Theorem game_changes_only_by_reset_or_response (c : Config) (ev : Event) :
  sessionId (snap (step c ev)) = sessionId (snap c)
  ∧ (keepsGame ev →
     board (snap (step c ev)) = board (snap c)
     ∧ status (snap (step c ev)) = status (snap c)).
Proof.
  destruct ev as [i| | |k net].
  - destruct (decide (moveGuard (snap c) i)) as [Hyes|Hno].
    + by rewrite step_click_accept.
    + by rewrite step_click_reject.
  - done.
  - done.
  - cbn [step]. destruct (inflight c !! k) as [req|]; [|done].
    cbn [snap]. destruct net as [e|[e|res]|status json].
    + by rewrite (resume_failure req (FetchRejected e) e _ eq_refl).
    + by rewrite (resume_failure req (FetchOk (inl e)) e _ eq_refl).
    + rewrite resume_success. by split; [|intros []].
    + by rewrite (resume_failure req (FetchNotOk status json)
                    (postMoveError status json) _ eq_refl).
Qed.

(** An accepted click on the centre: the centre is still empty. *)
Lemma game_changes_only_by_reset_or_response_witness :
  board (snap (step (start "S") (Click 4))) !! 4 = Some Empty
  ∧ busy (snap (step (start "S") (Click 4))) = true.
Proof.
  split; [|reflexivity].
  rewrite (proj1 (proj2 (game_changes_only_by_reset_or_response
                           (start "S") (Click 4)) I)).
  reflexivity.
Defined.

(** X8.  In a mounted component, after the response to a request no
    error message is stored and no error banner is shown. *)
Theorem success_leaves_no_error
    (sid : string) (trace : list Event) (k : nat) (req : MoveRequest)
    (r : MoveResponse) :
  let c := run (start sid) trace in
  let c' := step c (Settle k (FetchOk (inr r))) in
  inflight c !! k = Some req →
  error (snap c') = None ∧ errorBanner (snap c') = None.
Proof.
  intros c c' Hk.
  destruct (Inv_reachable sid trace) as (_ & Hfly & _ & Herr).
  fold c in Hfly, Herr.
  assert (Hnone : error (snap c') = None).
  { subst c'. rewrite (step_settle _ _ _ _ Hk). cbn [snap].
    rewrite resume_success. cbn [error]. apply Herr.
    destruct Hfly as [[Hnil _]|(? & _ & ? & _)]; [by rewrite Hnil in Hk|done]. }
  split; [done|]. unfold errorBanner. by rewrite Hnone.
Qed.

(** A failed move, then the same move answered. *)
Lemma success_leaves_no_error_witness :
  let r := mkMoveResponse true InProgress
             [Empty; Empty; Empty; Empty; Player; Empty; Empty; Empty; Opponent]
             None in
  error (snap (run (start "S") [Click 4; Settle 0 (FetchNotOk 500 None)]))
  = Some "HTTP 500"
  ∧ error (snap (run (start "S")
                   [Click 4; Settle 0 (FetchNotOk 500 None);
                    Click 4; Settle 0 (FetchOk (inr r))])) = None.
Proof.
  split; [reflexivity|].
  exact (proj1 (success_leaves_no_error "S"
                  [Click 4; Settle 0 (FetchNotOk 500 None); Click 4] 0
                  (mkMoveRequest "S" EmptyBoard 4) _ eq_refl)).
Defined.

(** X9.  Of a response only the status and the board are used: two
    responses that differ in the success flag or in the promo code
    leave the same snapshot. *)
Theorem response_flags_ignored
    (req : MoveRequest) (s : Snapshot) (r r' : MoveResponse) :
  res_status r = res_status r' →
  res_board r = res_board r' →
  onCellClick_resume req (FetchOk (inr r)) s
  = onCellClick_resume req (FetchOk (inr r')) s.
Proof. intros Hst Hb. by rewrite !resume_success, Hst, Hb. Qed.

(** A win reported with [success: false] and a promo code. *)
Lemma response_flags_ignored_witness :
  let b := [Empty; Empty; Empty; Empty; Player; Empty; Empty; Empty; Opponent] in
  onCellClick_resume (mkMoveRequest "S" EmptyBoard 4)
    (FetchOk (inr (mkMoveResponse false Win b (Some "PROMO"))))
    (snap (step (start "S") (Click 4)))
  = onCellClick_resume (mkMoveRequest "S" EmptyBoard 4)
      (FetchOk (inr (mkMoveResponse true Win b None)))
      (snap (step (start "S") (Click 4))).
Proof.
  exact (response_flags_ignored _ _
           (mkMoveResponse false Win _ (Some "PROMO"))
           (mkMoveResponse true Win _ None) eq_refl eq_refl).
Defined.

(** X10.  After a reset a click on cell [i] is accepted exactly when
    no request is in flight any more and [i] is one of the nine cells
    0 to 8, whatever the board and the status were before. *)
Theorem reset_makes_cells_playable (s : Snapshot) (i : nat) :
  moveGuard (resetGame s) i ↔ busy s = false ∧ (i < 9)%nat.
Proof.
  unfold moveGuard. cbn [resetGame setTgLink setError setStatus setBoard
                           status busy board].
  rewrite EmptyBoard_replicate. split.
  - intros (_ & Hbusy & Hcell). split; [done|].
    apply lookup_lt_Some in Hcell. by rewrite length_replicate in Hcell.
  - intros [Hbusy Hi]. split_and!; [done|done|].
    by apply lookup_replicate_2.
Qed.

(** A reset of a won game, and a reset while a request is in flight. *)
Lemma reset_makes_cells_playable_witness :
  moveGuard (resetGame (mkSnapshot "S" [Player; Player; Player] Win false
                          None (Some "link"))) 8
  ∧ ¬ moveGuard (resetGame (snap (step (start "S") (Click 4)))) 0.
Proof.
  split.
  - apply (proj2 (reset_makes_cells_playable _ 8)). split; [reflexivity|lia].
  - intros H.
    destruct (proj1 (reset_makes_cells_playable _ 0) H) as [Hbusy _].
    discriminate Hbusy.
Defined.

(** ** More about the session identifier *)

(** X11.  Whatever the store holds, the identifier
    [getOrCreateSessionId] returns is not empty and is what the store
    holds under the session key afterwards, and no other key of the
    store is touched. *)
Theorem getOrCreate_postcondition (st : Storage.t) (uuid : string) :
  let r := getOrCreateSessionId st uuid in
  fst r ≠ ""
  ∧ Storage.getItem (snd r) session_key = Some (fst r)
  ∧ (∀ key, key ≠ session_key →
            Storage.getItem (snd r) key = Storage.getItem st key).
Proof.
  cbn zeta.
  split_and!; [apply getOrCreate_nonempty|apply getOrCreate_persisted|].
  intros key Hkey.
  destruct (Storage.getItem st session_key) as [x|] eqn:Hget.
  - destruct (decide (x = "")) as [->|Hne].
    + rewrite getOrCreate_fresh by auto. by apply lookup_insert_ne.
    + by rewrite (getOrCreate_stored st x uuid Hget Hne).
  - rewrite getOrCreate_fresh by auto. by apply lookup_insert_ne.
Qed.

(** A store with another key and the empty string under the session
    key. *)
Lemma getOrCreate_postcondition_witness :
  Storage.getItem
    (snd (getOrCreateSessionId
            {[ session_key := ""; "theme" := "dark" ]} "u"))
    "theme"
  = Some "dark".
Proof.
  rewrite (proj2 (proj2 (getOrCreate_postcondition
                           {[ session_key := ""; "theme" := "dark" ]} "u"))
             "theme") by discriminate.
  reflexivity.
Defined.

(** X12.  A component mounted on a store sends, in any run, only
    requests whose session identifier is the one the store holds
    after the mount; and a component mounted again on that store,
    whatever UUID it could draw, gets the same identifier and leaves
    the store as it is. *)
Theorem mounted_requests_carry_stored_id
    (st : Storage.t) (uuid uuid' : string) (trace : list Event) :
  let m := App_mount st uuid App_initial in
  Forall (λ req, Storage.getItem (snd m) session_key = Some (req_sessionId req))
         (requestsSent (mkConfig (fst m) []) trace)
  ∧ sessionId (fst (App_mount (snd m) uuid' App_initial)) = sessionId (fst m)
  ∧ snd (App_mount (snd m) uuid' App_initial) = snd m.
Proof.
  cbn zeta. split_and!.
  - rewrite App_mount_start.
    eapply Forall_impl;
      [apply (requestsSent_wellFormed
                (fst (getOrCreateSessionId st uuid))), Inv_start|].
    intros req [-> _]. apply getOrCreate_persisted.
  - unfold App_mount. cbn [fst snd setSessionId sessionId].
    by rewrite getOrCreate_twice.
  - unfold App_mount. cbn [fst snd]. by rewrite getOrCreate_twice.
Qed.

(** ** More about the reward link and the error message *)

(** X13.  Different session identifiers have different reward links. *)
Theorem reward_links_distinguish_sessions (sid1 sid2 : string) :
  sid1 ≠ sid2 → buildTelegramLink sid1 ≠ buildTelegramLink sid2.
Proof. intros Hne Heq. by apply Hne, buildTelegramLink_inj. Qed.

(** Two identifiers that differ in a character that is escaped. *)
Lemma reward_links_distinguish_sessions_witness :
  buildTelegramLink "a b" ≠ buildTelegramLink "a%20b".
Proof. apply reward_links_distinguish_sessions. discriminate. Defined.

Lemma encode_unreserved (sid : string) :
  Forall (λ x, Uri.unreserved x = true) (list_ascii_of_string sid) →
  Uri.encodeURIComponent sid = sid.
Proof.
  induction sid as [|c sid IH]; [done|].
  cbn [list_ascii_of_string Uri.encodeURIComponent].
  intros [Hc Hrest]%Forall_cons. by rewrite Hc, IH.
Qed.

(** X14.  A session identifier made of ASCII letters, digits and the
    marks [- _ . ! ~ * ' ( )] only, as the generated [s_<uuid>]
    identifiers are, stands in the reward link as it is. *)
Theorem reward_link_verbatim (sid : string) :
  Forall (λ x, Uri.unreserved x = true) (list_ascii_of_string sid) →
  buildTelegramLink sid = linkTemplate +:+ sid.
Proof.
  intros H. by rewrite buildTelegramLink_shape, (encode_unreserved sid H).
Qed.

(** An identifier as [getOrCreateSessionId] makes them. *)
Lemma reward_link_verbatim_witness :
  buildTelegramLink
    (fst (getOrCreateSessionId ∅ "123e4567-e89b-12d3-a456-426614174000"))
  = "https://t.me/ttt432_bot?start=s_123e4567-e89b-12d3-a456-426614174000".
Proof.
  apply (reward_link_verbatim "s_123e4567-e89b-12d3-a456-426614174000").
  repeat (constructor; [reflexivity|]). constructor.
Defined.

Lemma httpStatusText_nonempty (status : N) : httpStatusText status ≠ "".
Proof. discriminate. Qed.

(** X15.  After a non-success response an error message is always
    stored, and the default text is never used.  The error banner is
    missing only when the body's message is a list whose joined text
    is empty (the empty list, for one): a message string, empty or
    not, and a body without message always give a banner. *)
Theorem failed_response_banner
    (req : MoveRequest) (status : N) (json : option ErrorBody) (s : Snapshot) :
  let s' := onCellClick_resume req (FetchNotOk status json) s in
  error s' = thrown_message (postMoveError status json)
  ∧ is_Some (error s')
  ∧ (errorBanner s' = None
     ↔ ∃ l, json ≫= body_message = Some (MessageArray l)
            ∧ String.concat ", " l = "").
Proof.
  cbn zeta.
  rewrite (resume_failure req (FetchNotOk status json)
             (postMoveError status json) s eq_refl).
  unfold errorBanner. cbn [error]. rewrite postMoveError_message.
  cbn [default]. split_and!; [done|by eexists|].
  assert (Hshown : ∀ m, m ≠ "" →
            (if truthy (Some m) then Some m else None) = None ↔ False).
  { intros m Hm. rewrite (proj2 (truthy_nonempty m) Hm). by split. }
  destruct (json ≫= body_message) as [[m|l]|].
  - rewrite Hshown
      by (destruct (decide (m = "")); [apply httpStatusText_nonempty|done]).
    split; [done|]. by intros (l & [=] & _).
  - destruct (decide (String.concat ", " l = "")) as [Hl|Hl].
    + rewrite Hl. cbn. split; [|done]. intros _. by exists l.
    + rewrite (Hshown _ Hl). split; [done|]. by intros (l' & [= <-] & ?).
  - rewrite (Hshown _ (httpStatusText_nonempty status)).
    split; [done|]. by intros (l & [=] & _).
Qed.

(** HTTP 400 with the body [{ message: [] }]: an empty error message
    is stored and no banner is shown. *)
Lemma failed_response_banner_witness :
  let s' := snap (run (start "S")
              [Click 4;
               Settle 0 (FetchNotOk 400
                           (Some (mkErrorBody (Some (MessageArray [])))))]) in
  error s' = Some "" ∧ errorBanner s' = None.
Proof.
  split; [reflexivity|].
  apply (proj2 (proj2 (proj2
           (failed_response_banner (mkMoveRequest "S" EmptyBoard 4) 400
              (Some (mkErrorBody (Some (MessageArray []))))
              (snap (step (start "S") (Click 4))))))).
  by exists [].
Defined.

(** ** Presentation helpers *)

Section ClsxFacts.

Implicit Types (x : ClassArg) (xs ys : list ClassArg) (l : list string).

Lemma concat_cons_nonempty (sep a : string) l :
  l ≠ [] → String.concat sep (a :: l) = a +:+ sep +:+ String.concat sep l.
Proof. by destruct l. Qed.

Lemma append_assoc (a b d : string) : (a +:+ b) +:+ d = a +:+ (b +:+ d).
Proof.
  induction a as [|c a IH]; [done|].
  change (String c ((a +:+ b) +:+ d) = String c (a +:+ (b +:+ d))).
  by rewrite IH.
Qed.

Lemma append_nonempty_l (a b : string) : a ≠ "" → a +:+ b ≠ "".
Proof. by destruct a. Qed.

Lemma concat_app_nonempty (sep : string) l1 l2 :
  l1 ≠ [] → l2 ≠ [] →
  String.concat sep (l1 ++ l2)
  = String.concat sep l1 +:+ sep +:+ String.concat sep l2.
Proof.
  intros H1 H2. induction l1 as [|a l1 IH]; [done|].
  destruct l1 as [|b l1].
  - cbn [app]. by rewrite concat_cons_nonempty.
  - change ((a :: b :: l1) ++ l2)%list with (a :: ((b :: l1) ++ l2)%list).
    rewrite !concat_cons_nonempty by done.
    rewrite IH by done. by rewrite !append_assoc.
Qed.

(** What [filter(Boolean)] keeps are non-empty strings, so their join
    is empty only when nothing is kept. *)
Lemma clsx_kept_nonempty xs :
  Forall (λ t, t ≠ "") (classText <$> List.filter classTruthy xs).
Proof.
  induction xs as [|x xs IH]; [constructor|].
  cbn [List.filter]. destruct (classTruthy x) eqn:Hx; [|done].
  rewrite fmap_cons. constructor; [|done].
  destruct x as [t| | |]; try done. cbn in Hx |- *.
  by destruct (String.eqb_spec t "").
Qed.

Lemma concat_nonempty (sep : string) l :
  Forall (λ t, t ≠ "") l → l ≠ [] → String.concat sep l ≠ "".
Proof.
  intros Hall Hne. destruct l as [|a l]; [done|].
  inversion Hall; subst. destruct l as [|b l]; [done|].
  rewrite concat_cons_nonempty by done. by apply append_nonempty_l.
Qed.

Lemma clsx_empty_kept xs :
  clsx xs = "" ↔ List.filter classTruthy xs = [].
Proof.
  unfold clsx. split; [|by intros ->].
  intros Hempty. destruct (List.filter classTruthy xs) as [|x kept] eqn:Hk;
    [done|].
  exfalso. revert Hempty. apply concat_nonempty; [|done].
  rewrite <- Hk. apply clsx_kept_nonempty.
Qed.

End ClsxFacts.

(** X16.  [clsx] of two lists of arguments put together is the two
    results with one blank between them, and just the other result
    when one of them is empty: no blank is ever written for an
    argument that is left out. *)
Theorem clsx_app (xs ys : list ClassArg) :
  clsx (xs ++ ys)
  = (if decide (clsx xs = "") then clsx ys
     else if decide (clsx ys = "") then clsx xs
     else clsx xs +:+ " " +:+ clsx ys).
Proof.
  destruct (decide (clsx xs = "")) as [Hx|Hx];
    [|destruct (decide (clsx ys = "")) as [Hy|Hy]].
  - apply clsx_empty_kept in Hx. unfold clsx.
    by rewrite List.filter_app, Hx.
  - apply clsx_empty_kept in Hy. unfold clsx.
    by rewrite List.filter_app, Hy, app_nil_r.
  - unfold clsx in *. rewrite List.filter_app, fmap_app.
    apply concat_app_nonempty.
    + intros Hnil. apply Hx. by rewrite Hnil.
    + intros Hnil. apply Hy. by rewrite Hnil.
Qed.

(** X17.  [clsx] ignores [false], [undefined], [null] and the empty
    string wherever they stand among its arguments, and its result is
    empty exactly when every argument is one of these. *)
Theorem clsx_ignores_falsy (xs ys : list ClassArg) (x : ClassArg) :
  (classTruthy x = false → clsx (xs ++ x :: ys) = clsx (xs ++ ys))
  ∧ (clsx xs = "" ↔ Forall (λ a, classTruthy a = false) xs).
Proof.
  split.
  - intros Hx. unfold clsx. rewrite !List.filter_app. cbn [List.filter].
    by rewrite Hx.
  - rewrite clsx_empty_kept. induction xs as [|a xs IH]; [by split|].
    cbn [List.filter]. rewrite Forall_cons.
    destruct (classTruthy a); [|by rewrite IH; intuition].
    split; [done|]. by intros [? _].
Qed.

(** The class of a board button that is not clickable, and the class
    of the mark of an empty cell. *)
Lemma clsx_ignores_falsy_witness :
  clsx [ClassName "bg-white/70 border-white/60";
        classWhen false "hover:bg-white/85";
        classWhen true "opacity-95"]
  = clsx [ClassName "bg-white/70 border-white/60"; classWhen true "opacity-95"]
  ∧ clsx [classWhen false "text-slate-900"; classWhen false "text-rose-500"]
    = "".
Proof.
  split.
  - exact (proj1 (clsx_ignores_falsy
                    [ClassName "bg-white/70 border-white/60"]
                    [classWhen true "opacity-95"]
                    (classWhen false "hover:bg-white/85")) eq_refl).
  - apply (proj2 (clsx_ignores_falsy
                    [classWhen false "text-slate-900";
                     classWhen false "text-rose-500"] [] ClassNull)).
    by repeat constructor.
Defined.

(** X18.  [prettyStatus] gives a different, non-empty text for each of
    the four statuses, and [CellMark] a different rendering for each
    of the three cell values: an empty cell shows the mark of the
    opponent in the faded class. *)
Theorem status_and_marks_distinct :
  (∀ st1 st2 : GameStatus,
     prettyStatus st1 = prettyStatus st2 → st1 = st2)
  ∧ (∀ st : GameStatus, prettyStatus st ≠ "")
  ∧ (∀ v1 v2 : Cell, CellMark v1 = CellMark v2 → v1 = v2)
  ∧ snd (CellMark Empty) = snd (CellMark Opponent)
  ∧ fst (CellMark Player) = fst (CellMark Opponent).
Proof.
  split_and!.
  - intros [] []; by (reflexivity || discriminate).
  - by intros [].
  - intros [] []; by (reflexivity || (vm_compute; discriminate)).
  - reflexivity.
  - reflexivity.
Qed.

(** The texts of a win and of a loss. *)
Lemma status_and_marks_distinct_witness :
  prettyStatus Win ≠ prettyStatus Lose.
Proof.
  intros H. by pose proof (proj1 status_and_marks_distinct Win Lose H).
Defined.

(** ** What is rendered *)

(** X19.  The board is rendered as one button per cell, in order; the
    button of cell [k] passes [k] to [onCellClick], and it is marked
    clickable exactly when a click on it is accepted and sends a
    request. *)
Theorem buttons_match_guard (s : Snapshot) :
  length (boardButtons s) = length (board s)
  ∧ ∀ (k : nat) (b : CellButton),
      boardButtons s !! k = Some b →
      btn_index b = k
      ∧ (btn_clickable b = true ↔ moveGuard s k)
      ∧ (btn_clickable b = true ↔ snd (onCellClick s (btn_index b)) ≠ []).
Proof.
  unfold boardButtons. split; [apply length_imap|].
  intros k b. rewrite list_lookup_imap.
  destruct (board s !! k) as [v|] eqn:Hv; [|done].
  intros [= <-]. cbn [btn_index btn_clickable].
  assert (Hguard : canPlay s && bool_decide (v = Empty) = true ↔ moveGuard s k).
  { rewrite moveGuard_tests. unfold cellNotEmpty.
    rewrite andb_true_iff, negb_false_iff, !bool_decide_eq_true, Hv.
    split; intros [? H]; split; congruence. }
  split_and!; [done|done|].
  rewrite Hguard. destruct (decide (moveGuard s k)) as [Hyes|Hno].
  - by rewrite (onCellClick_accept _ _ Hyes).
  - by rewrite (onCellClick_reject _ _ Hno).
Qed.

(** The buttons of a board with two marks: the centre is taken, the
    corner is free. *)
Lemma buttons_match_guard_witness :
  let s := mkSnapshot "S"
             [Empty; Empty; Empty; Empty; Player; Empty; Empty; Empty; Opponent]
             InProgress false None None in
  moveGuard s 0 ∧ ¬ moveGuard s 4.
Proof.
  cbn zeta.
  pose proof (proj2 (buttons_match_guard
    (mkSnapshot "S"
       [Empty; Empty; Empty; Empty; Player; Empty; Empty; Empty; Opponent]
       InProgress false None None))) as H.
  split.
  - destruct (H 0%nat _ eq_refl) as (_ & Hg & _). by apply Hg.
  - destruct (H 4%nat _ eq_refl) as (_ & Hg & _). intros Hno.
    apply Hg in Hno. discriminate Hno.
Defined.

(** X20.  In every snapshot of a mounted component the link modal and
    the retry panel are never shown together; the retry panel is
    shown exactly for a loss or a draw; and while the modal or the
    panel is shown, or a request is in flight, no button of the board
    is clickable. *)
Theorem panels_exclusive (sid : string) (trace : list Event) :
  let s := snap (run (start sid) trace) in
  (linkModal s = None ∨ retryPanel s = None)
  ∧ (is_Some (retryPanel s) ↔ status s = Lose ∨ status s = Draw)
  ∧ (is_Some (linkModal s) ∨ is_Some (retryPanel s) ∨ busy s = true →
     Forall (λ b, btn_clickable b = false) (boardButtons s)).
Proof.
  intros s.
  destruct (Inv_reachable sid trace) as (_ & _ & Hwin & _).
  fold s in Hwin.
  assert (Hpanel : is_Some (retryPanel s) ↔ status s = Lose ∨ status s = Draw).
  { unfold retryPanel. destruct (status s);
      (split;
       [intros [x Hx]; vm_compute in Hx; try discriminate Hx; auto
       |intros [H|H]; try discriminate H; vm_compute; eauto]). }
  assert (Hmodal : is_Some (linkModal s) → status s = Win).
  { unfold linkModal. destruct Hwin as [->|[? _]]; [|done].
    cbn. by intros [? [=]]. }
  split_and!.
  - destruct (linkModal s) eqn:Hl; [|by left]. right.
    specialize (Hmodal (mk_is_Some _ _ eq_refl)).
    unfold retryPanel. by rewrite Hmodal.
  - exact Hpanel.
  - intros Hshown.
    assert (Hno : canPlay s = false).
    { unfold canPlay.
      destruct Hshown as [H|[H|H]].
      - by rewrite (Hmodal H).
      - apply Hpanel in H as [->| ->]; done.
      - rewrite H. apply andb_false_r. }
    unfold boardButtons. apply Forall_forall. intros b Hb.
    apply list_elem_of_lookup in Hb as [k Hk].
    rewrite list_lookup_imap in Hk.
    destruct (board s !! k); [|done]. injection Hk as <-.
    cbn. by rewrite Hno.
Qed.

(** A lost game: the retry panel is shown, the modal is not, and no
    button is clickable. *)
Lemma panels_exclusive_witness :
  let s := snap (run (start "S")
             [Click 4;
              Settle 0 (FetchOk (inr (mkMoveResponse true Lose
                [Opponent; Opponent; Opponent; Empty; Player; Player; Empty;
                 Empty; Empty] None)))]) in
  retryPanel s = Some "Хотите попробовать ещё раз?"
  ∧ linkModal s = None
  ∧ Forall (λ b, btn_clickable b = false) (boardButtons s).
Proof.
  split_and!; [reflexivity|reflexivity|].
  apply (proj2 (proj2 (panels_exclusive "S"
           [Click 4;
            Settle 0 (FetchOk (inr (mkMoveResponse true Lose
              [Opponent; Opponent; Opponent; Empty; Player; Player; Empty;
               Empty; Empty] None)))]))).
  right. left. by eexists.
Defined.

(** ** The link modal *)

Section ModalFacts.

Implicit Types (m : ModalState) (link : string).

Lemma modal_inv_step link m (ev : ModalEvent) :
  (copied m = true → (0 < timeouts m)%nat ∧ written m = Some link) →
  (written m = None ∨ written m = Some link) →
  (copied (modalStep link m ev) = true →
   (0 < timeouts (modalStep link m ev))%nat
   ∧ written (modalStep link m ev) = Some link)
  ∧ (written (modalStep link m ev) = None
     ∨ written (modalStep link m ev) = Some link).
Proof.
  intros Hc Hw. destruct ev; cbn.
  - split; [intros _; split; [lia|done]|by right].
  - done.
  - destruct (timeouts m) eqn:Ht.
    + split; [|done]. intros H. destruct (Hc H). lia.
    + cbn. by split.
Qed.

Lemma modal_inv_run link (trace : list ModalEvent) m :
  (copied m = true → (0 < timeouts m)%nat ∧ written m = Some link) →
  (written m = None ∨ written m = Some link) →
  (copied (modalRun link m trace) = true →
   (0 < timeouts (modalRun link m trace))%nat
   ∧ written (modalRun link m trace) = Some link)
  ∧ (written (modalRun link m trace) = None
     ∨ written (modalRun link m trace) = Some link).
Proof.
  revert m. induction trace as [|ev trace IH]; intros m Hc Hw; [done|].
  destruct (modal_inv_step link m ev Hc Hw). by apply IH.
Qed.

Lemma modal_timeouts_drain link (n : nat) m :
  timeouts m = n → (copied m = true → (0 < n)%nat) →
  copied (modalRun link m (replicate n TimeoutRuns)) = false
  ∧ timeouts (modalRun link m (replicate n TimeoutRuns)) = 0%nat.
Proof.
  revert m. induction n as [|n IH]; intros m Hn Hc.
  - cbn. split; [|done]. destruct (copied m); [|done].
    specialize (Hc eq_refl). lia.
  - cbn [replicate modalRun fold_left]. apply IH.
    + cbn. by rewrite Hn.
    + cbn. rewrite Hn. cbn. discriminate.
Qed.

End ModalFacts.

(** X21.  In the link modal, whatever the order of resolved and
    rejected copies and of timeouts: while the check mark is shown a
    timeout that takes it away is pending and the link of the modal
    has been written to the clipboard; nothing but that link is ever
    written; a rejected copy changes nothing; and once the pending
    timeouts have run the check mark is gone. *)
Theorem copy_mark_resets (link : string) (trace : list ModalEvent) :
  let m := modalRun link modalInitial trace in
  (copied m = true → (0 < timeouts m)%nat ∧ written m = Some link)
  ∧ (written m = None ∨ written m = Some link)
  ∧ modalStep link m CopyRefused = m
  ∧ copied (modalRun link m (replicate (timeouts m) TimeoutRuns)) = false.
Proof.
  intros m.
  destruct (modal_inv_run link trace modalInitial) as [Hc Hw];
    [done|by left|]. fold m in Hc, Hw.
  split_and!; [done|done|done|].
  apply (modal_timeouts_drain link (timeouts m) m eq_refl).
  intros H. by destruct (Hc H).
Qed.

(** Two copies in a row and one timeout: the check mark is gone while
    the timeout of the second copy is still pending. *)
Lemma copy_mark_resets_witness :
  let m := modalRun "L" modalInitial [CopyWritten] in
  copied m = true ∧ timeouts m = 1%nat ∧ written m = Some "L"
  ∧ modalRun "L" modalInitial [CopyWritten; CopyWritten; TimeoutRuns]
    = mkModalState false 1 (Some "L").
Proof.
  cbn zeta.
  destruct (proj1 (copy_mark_resets "L" [CopyWritten]) eq_refl) as [_ Hw].
  split_and!; [reflexivity|reflexivity|exact Hw|reflexivity].
Defined.
